(** * Shallow embedding of the shorts generator backend (src/app.js)

    [src/app.js] holds two successive versions of the backend:
    - lines 1-659, the MongoDB version ([Module Mongo] below): the job
      pipeline driven by mongoose documents, with per-request pricing and
      the daily retention sweep;
    - lines 661-1225, the JSON-file version ([Module FileDb] below): users
      and jobs kept as arrays in [users.json] / [jobs.json], five 30 s shorts
      per job at a fixed price of 25 credits.

    Durations are JavaScript numbers; we model them with exact rationals [Q]
    (the start-time expressions are the same expressions the code evaluates).
    Credit balances and counts are integers [Z].  Every awaited I/O call
    ([save], [readJobs], [writeJobs], [exec], ffmpeg, S3 [send], [fs.*]) may
    reject: a world carries a list of fault bits, one consumed per I/O call,
    [true] meaning that the call rejects (an empty list means "no more
    faults").  Background work is run serially, without interleaving. *)

From Stdlib Require Import Ascii String DecimalString List ZArith QArith Qminmax Bool Lia
  Permutation Sorted.
Import ListNotations.
Open Scope string_scope.

(** ** Job status (the [enum] of the job schema) *)
Inductive job_status := pending | downloading | processing | completed | failed.

Definition status_eqb (a b : job_status) : bool :=
  match a, b with
  | pending, pending | downloading, downloading | processing, processing
  | completed, completed | failed, failed => true
  | _, _ => false
  end.

Lemma status_eqb_eq a b : status_eqb a b = true <-> a = b.
Proof. destruct a, b; simpl; split; congruence. Qed.

(** ** Results of awaited calls, and the fault-driven I/O monad *)
Inductive res (A : Type) := Ok (a : A) | Err.
Arguments Ok {A} a.
Arguments Err {A}.

(** A computation reads and updates a world [W] and consumes one fault bit
    per awaited I/O call. *)
Definition ST (W A : Type) := W * list bool -> res A * (W * list bool).

Definition ret {W A} (a : A) : ST W A := fun s => (Ok a, s).

Definition bind {W A B} (m : ST W A) (k : A -> ST W B) : ST W B :=
  fun s => match m s with
           | (Ok a, s') => k a s'
           | (Err, s') => (Err, s')
           end.

Notation "x <- m ;; k" := (bind m (fun x => k))
  (at level 61, m at next level, right associativity).
Notation "m ;;; k" := (bind m (fun _ => k))
  (at level 61, right associativity).

Definition get {W} : ST W W := fun '(w, fs) => (Ok w, (w, fs)).
Definition modify {W} (f : W -> W) : ST W unit := fun '(w, fs) => (Ok tt, (f w, fs)).

(** An awaited call: it rejects when the next fault bit is [true]. *)
Definition io {W} : ST W unit :=
  fun '(w, fs) => match fs with
                  | true :: fs' => (Err, (w, fs'))
                  | false :: fs' => (Ok tt, (w, fs'))
                  | [] => (Ok tt, (w, []))
                  end.

(** [throw]: a rejection raised by the code itself (e.g. a failed schema
    validation). *)
Definition throw {W A} : ST W A := fun s => (Err, s).

(** [attempt m] runs [m] and reifies a rejection: the shape of [try]. *)
Definition attempt {W A} (m : ST W A) : ST W (res A) :=
  fun s => match m s with (r, s') => (Ok r, s') end.

(** [try { m } catch { h }] *)
Definition try_catch {W A} (m : ST W A) (h : ST W A) : ST W A :=
  r <- attempt m ;; match r with Ok a => ret a | Err => h end.

Definition run {W A} (m : ST W A) (w : W) (fs : list bool) : res A * W :=
  match m (w, fs) with (r, (w', _)) => (r, w') end.

(** Number formatting of template literals. *)
Definition string_of_Z (z : Z) : string := NilZero.string_of_int (Z.to_int z).

(** Strings free of the path separator. *)
Fixpoint no_slash (s : string) : bool :=
  match s with
  | EmptyString => true
  | String c s' => negb (Ascii.eqb c "/"%char) && no_slash s'
  end.

(** ** Segment planning (the start time / duration computations) *)

(** Mongo version, [processSegment] lines 483-485 and 493: the start time is
    [(index - 1) * (videoDuration / totalSegments)] and the requested
    duration is the job's [segmentDuration], unchanged. *)
Definition mongo_segment_window (videoDuration : Q) (totalSegments index : Z)
    (segmentDuration : Q) : Q * Q :=
  let segmentSpacing := videoDuration / inject_Z totalSegments in
  let startTime := inject_Z (index - 1)%Z * segmentSpacing in
  (startTime, segmentDuration).

(** Mongo version, the loop of [processJobInBackground] (lines 423-434):
    segment [i + 1] for [i = 0 .. segmentCount - 1]. *)
Definition mongo_plan (videoDuration : Q) (segmentCount : Z) (segmentDuration : Q)
    : list (Z * Q * Q) :=
  map (fun i => let index := (Z.of_nat i + 1)%Z in
                let '(st, d) := mongo_segment_window videoDuration segmentCount
                                  index segmentDuration in
                (index, st, d))
      (seq 0 (Z.to_nat segmentCount)).

(** JSON-file version, lines 1093-1106: [segmentDuration = 30],
    [segmentCount = 5], start time [(duration / segmentCount) * i] for the
    short numbered [i + 1]; [createShort] is asked for [segmentDuration]. *)
Definition file_segmentDuration : Q := 30.
Definition file_segmentCount : Z := 5.

Definition file_segment_window (duration : Q) (i : nat) : Q * Q :=
  let startTime := (duration / inject_Z file_segmentCount) * inject_Z (Z.of_nat i) in
  (startTime, file_segmentDuration).

Definition file_plan (duration : Q) : list (Z * Q * Q) :=
  map (fun i => let '(st, d) := file_segment_window duration i in
                ((Z.of_nat i + 1)%Z, st, d))
      (seq 0 (Z.to_nat file_segmentCount)).

(** The planner as the spec words it (section 4.1): index [i], start time
    [(D / N) * (i - 1)]. *)
Definition spec_start (D : Q) (N index : Z) : Q := (D / inject_Z N) * inject_Z (index - 1)%Z.

Definition starts (p : list (Z * Q * Q)) : list Q := map (fun '(_, st, _) => st) p.
Definition durations (p : list (Z * Q * Q)) : list Q := map (fun '(_, _, d) => d) p.

(** ** Storage keys *)

(** Mongo version, [processSegment] lines 542-543. *)
Definition mongo_key (jobId artifactName : string) : string :=
  "shorts/" ++ jobId ++ "/" ++ artifactName.
Definition mongo_segmentKey (jobId : string) (index : Z) : string :=
  mongo_key jobId ("segment_" ++ string_of_Z index ++ ".mp4").
Definition mongo_thumbKey (jobId : string) (index : Z) : string :=
  mongo_key jobId ("thumb_" ++ string_of_Z index ++ ".jpg").

(** JSON-file version, [processJobInBackground] lines 1112-1113. *)
Definition file_key (userId jobId artifactName : string) : string :=
  "users/" ++ userId ++ "/" ++ jobId ++ "/" ++ artifactName.
Definition file_videoKey (userId jobId : string) (i : nat) : string :=
  file_key userId jobId ("short_" ++ string_of_Z (Z.of_nat i + 1) ++ ".mp4").
Definition file_thumbKey (userId jobId : string) (i : nat) : string :=
  file_key userId jobId ("thumb_" ++ string_of_Z (Z.of_nat i + 1) ++ ".jpg").

(** The key scheme of the spec (section 4.3). *)
Definition spec_key (ownerId jobId artifactName : string) : string :=
  ownerId ++ "/" ++ jobId ++ "/" ++ artifactName.

(** ** Generic helpers on JavaScript arrays *)

(** [Array.prototype.findIndex], with [None] for [-1]. *)
Fixpoint find_index {A} (p : A -> bool) (l : list A) : option nat :=
  match l with
  | [] => None
  | x :: l' => if p x then Some O else option_map S (find_index p l')
  end.

(** [a[k] = f(a[k])] for an index [k] returned by [findIndex]. *)
Fixpoint update_nth {A} (k : nat) (f : A -> A) (l : list A) : list A :=
  match k, l with
  | _, [] => []
  | O, x :: l' => f x :: l'
  | S k', x :: l' => x :: update_nth k' f l'
  end.

(** JavaScript truthiness of the fields read by [x || default]. *)
Definition str_or (s d : string) : string := if String.eqb s "" then d else s.
Definition num_or (q d : Q) : Q := if Qeq_bool q 0 then d else q.

Definition day_ms : Z := (24 * 60 * 60 * 1000)%Z.

(** [Math.ceil(ms / day_ms)] *)
Definition ceil_days (ms : Z) : Z := (- ((- ms) / day_ms))%Z.

(** A signed URL for [key] valid [ttl] seconds ([getSignedUrl]). *)
Record signed_url := mkUrl { url_key : string; url_ttl : Z }.

(** Temporary directories are named by the job id and [Date.now()]. *)
Definition dir_eqb (a b : string * Z) : bool :=
  String.eqb (fst a) (fst b) && Z.eqb (snd a) (snd b).


(** * The JSON-file version (src/app.js lines 661-1225) *)
Module FileDb.

Record segment := mkSegment {
  seg_index : Z;
  seg_startTime : Q;
  seg_duration : Q;
  seg_storageKey : string;
  seg_thumbnailKey : string }.

Record job := mkJob {
  id : string;
  userId : string;
  youtubeUrl : string;
  videoTitle : string;
  videoDuration : Q;
  status : job_status;
  creditsUsed : Z;
  segments : list segment;
  createdAt : Z;
  expiresAt : Z;
  completedAt : option Z }.

Record user := mkUser { uid : string; email : string; credits : Z }.

(** The world: the contents of [users.json] and [jobs.json], every content
    of [jobs.json] ever written (oldest first), the temporary directories
    [/tmp/shorts_<id>_<stamp>] present on disk (as pairs [(id, stamp)]), the
    keys present in the bucket, [Date.now()], what [youtube-dl --dump-json]
    returns (title, duration) and what [ffprobe] reports. *)
Record world := mkWorld {
  users : list user;
  jobs : list job;
  history : list (list job);
  tmpdirs : list (string * Z);
  storage : list string;
  clock : Z;
  remote : string * Q;
  probe : Q }.

Definition set_users (us : list user) (w : world) : world :=
  mkWorld us (jobs w) (history w) (tmpdirs w) (storage w) (clock w) (remote w) (probe w).
Definition set_jobs (js : list job) (w : world) : world :=
  mkWorld (users w) js (history w ++ [js]) (tmpdirs w) (storage w) (clock w) (remote w) (probe w).
Definition set_tmpdirs (ds : list (string * Z)) (w : world) : world :=
  mkWorld (users w) (jobs w) (history w) ds (storage w) (clock w) (remote w) (probe w).
Definition set_storage (ks : list string) (w : world) : world :=
  mkWorld (users w) (jobs w) (history w) (tmpdirs w) ks (clock w) (remote w) (probe w).

Definition with_status (s : job_status) (j : job) : job :=
  mkJob (id j) (userId j) (youtubeUrl j) (videoTitle j) (videoDuration j) s
        (creditsUsed j) (segments j) (createdAt j) (expiresAt j) (completedAt j).
Definition with_result (now : Z) (segs : list segment) (j : job) : job :=
  mkJob (id j) (userId j) (youtubeUrl j) (videoTitle j) (videoDuration j) completed
        (creditsUsed j) segs (createdAt j) (expiresAt j) (Some now).
Definition with_credits (c : Z) (u : user) : user := mkUser (uid u) (email u) c.

Abbreviation M := (ST world).

(** [readJobs] / [writeJobs] / [readUsers] / [writeUsers], lines 715-731. *)
Definition readJobs : M (list job) := io ;;; w <- get ;; ret (jobs w).
Definition writeJobs (js : list job) : M unit := io ;;; modify (set_jobs js).
Definition readUsers : M (list user) := io ;;; w <- get ;; ret (users w).
Definition writeUsers (us : list user) : M unit := io ;;; modify (set_users us).

Definition is_job (jid : string) (j : job) : bool := String.eqb (id j) jid.
Definition is_user (id' : string) (u : user) : bool := String.eqb (uid u) id'.

(** [uploadToStorage], lines 1046-1059: [fs.readFile], then [s3Client.send]. *)
Definition uploadToStorage (key : string) : M unit :=
  io ;;; io ;;; modify (fun w => set_storage (key :: storage w) w).

(** [getVideoDuration], lines 1171-1178. *)
Definition getVideoDuration : M Q := io ;;; w <- get ;; ret (probe w).

(** [authMiddleware], lines 734-753, after [jwt.verify] produced [userId]. *)
Definition authMiddleware (userId : string) : M (option user) :=
  r <- attempt readUsers ;;
  match r with
  | Ok us => ret (find (is_user userId) us)
  | Err => ret None
  end.

(** The body of the segment loop, lines 1100-1129, for [i] from [i0], [n]
    iterations left, [segments] the array built so far. *)
Fixpoint make_shorts (j : job) (duration : Q) (i n : nat) (segments : list segment)
    : M (list segment) :=
  match n with
  | O => ret segments
  | S n' =>
      let '(startTime, segmentDuration) := file_segment_window duration i in
      let videoKey := file_videoKey (userId j) (id j) i in
      let thumbKey := file_thumbKey (userId j) (id j) i in
      io ;;;                          (* createShort *)
      io ;;;                          (* generateThumbnail *)
      uploadToStorage videoKey ;;;
      uploadToStorage thumbKey ;;;
      io ;;;                          (* fs.stat(segmentPath) *)
      make_shorts j duration (S i) n'
        (segments ++ [mkSegment (Z.of_nat i + 1) startTime segmentDuration videoKey thumbKey])
  end.

(** The [try] block of [processJobInBackground] before [tempDir] is
    assigned (lines 1069-1074). *)
Definition mark_processing (j : job) : M unit :=
  js <- readJobs ;;
  match find_index (is_job (id j)) js with
  | Some k => writeJobs (update_nth k (with_status processing) js)
  | None => ret tt
  end.

(** The rest of the [try] block (lines 1077-1141); [tempDir] is
    [/tmp/shorts_<id>_<stamp>]. *)
Definition process_in_tempdir (j : job) (tempDir : string * Z) : M unit :=
  io ;;; modify (fun w => set_tmpdirs (tempDir :: tmpdirs w) w) ;;;  (* fs.mkdir(tempDir) *)
  io ;;;                                                           (* fs.mkdir(outputDir) *)
  io ;;;                                                           (* exec download *)
  duration <- getVideoDuration ;;
  segments <- make_shorts j duration 0 (Z.to_nat file_segmentCount) [] ;;
  updatedJobs <- readJobs ;;
  w <- get ;;
  match find_index (is_job (id j)) updatedJobs with
  | Some k => writeJobs (update_nth k (with_result (clock w) segments) updatedJobs)
  | None => ret tt
  end.

(** The [catch] block (lines 1143-1157): its own [try], errors logged. *)
Definition mark_failed (j : job) : M unit :=
  r <- attempt (
    js <- readJobs ;;
    match find_index (is_job (id j)) js with
    | Some k => writeJobs (update_nth k (with_status failed) js)
    | None => ret tt
    end) ;;
  ret tt.

(** The [finally] block (lines 1158-1167). *)
Definition cleanup (tempDir : option (string * Z)) : M unit :=
  match tempDir with
  | Some d =>
      r <- attempt (io ;;; modify (fun w => set_tmpdirs (filter (fun d' => negb (dir_eqb d d')) (tmpdirs w)) w)) ;;
      ret tt
  | None => ret tt
  end.

(** [processJobInBackground(job)], lines 1062-1168.  [tempDir] is assigned
    once [mark_processing] has succeeded; the [finally] block sees it
    assigned from then on. *)
Definition processJobInBackground (j : job) : M unit :=
  r <- attempt (mark_processing j) ;;
  match r with
  | Err => mark_failed j ;;; cleanup None
  | Ok _ =>
      w <- get ;;
      let tempDir := (id j, clock w) in
      r2 <- attempt (process_in_tempdir j tempDir) ;;
      match r2 with
      | Err => mark_failed j ;;; cleanup (Some tempDir)
      | Ok _ => cleanup (Some tempDir)
      end
  end.

(** HTTP responses of the handlers modelled here. *)
Inductive response :=
  | R401
  | R402
  | R404
  | R500
  | R200_job (j : job)
  | R200_view (j : job) (segs : list (segment * option (signed_url * signed_url))) (expiresIn : Z).

(** [POST /api/jobs], lines 891-961 (the handler body once
    [authMiddleware] has found the user). *)
Definition create_job (u : user) (youtubeUrl : string) : M response :=
  let totalCost := 25%Z in
  if (credits u <? totalCost)%Z then ret R402 else
  videoInfo <- try_catch (io ;;; w <- get ;; ret (remote w))
                         (ret ("YouTube Video", 300%Q)) ;;
  w <- get ;;
  let jobId := "job_" ++ string_of_Z (clock w) in
  let job := mkJob jobId (uid u) youtubeUrl
               (str_or (fst videoInfo) "YouTube Video") (num_or (snd videoInfo) 300)
               pending totalCost [] (clock w) (clock w + 7 * day_ms)%Z None in
  js <- readJobs ;;
  writeJobs (js ++ [job]) ;;;
  us <- readUsers ;;
  match find_index (is_user (uid u)) us with
  | Some k => writeUsers (update_nth k (fun x => with_credits (credits x - totalCost)%Z x) us)
  | None => ret tt
  end ;;;
  ret (R200_job job).

Definition post_jobs (userId youtubeUrl : string) : M response :=
  au <- authMiddleware userId ;;
  match au with
  | None => ret R401
  | Some u => try_catch (create_job u youtubeUrl) (ret R500)
  end.

(** [getSignedStorageUrl], lines 1038-1044. *)
Definition getSignedStorageUrl (key : string) (ttl : Z) : M signed_url :=
  io ;;; ret (mkUrl key ttl).

Fixpoint sign_segments (segs : list segment) : M (list (segment * option (signed_url * signed_url))) :=
  match segs with
  | [] => ret []
  | s :: rest =>
      v <- try_catch
             (previewUrl <- getSignedStorageUrl (seg_storageKey s) (7 * 24 * 60 * 60)%Z ;;
              downloadUrl <- getSignedStorageUrl (seg_storageKey s) (24 * 60 * 60)%Z ;;
              ret (s, Some (previewUrl, downloadUrl)))
             (ret (s, None)) ;;
      vs <- sign_segments rest ;;
      ret (v :: vs)
  end.

(** [GET /api/jobs/:id], lines 982-1035. *)
Definition get_job_handler (u : user) (jobIdParam : string) : M response :=
  jobs <- readJobs ;;
  match find (fun j => is_job jobIdParam j && String.eqb (userId j) (uid u)) jobs with
  | None => ret R404
  | Some job =>
      segs <- (if status_eqb (status job) completed && negb (Nat.eqb (length (segments job)) 0)
               then sign_segments (segments job)
               else ret (map (fun s => (s, None)) (segments job))) ;;
      w <- get ;;
      let daysRemaining := ceil_days (expiresAt job - clock w)%Z in
      ret (R200_view job segs (if (daysRemaining >? 0)%Z then daysRemaining else 0%Z))
  end.

Definition get_job (userId jobIdParam : string) : M response :=
  au <- authMiddleware userId ;;
  match au with
  | None => ret R401
  | Some u => try_catch (get_job_handler u jobIdParam) (ret R500)
  end.

End FileDb.

(** * The MongoDB version (src/app.js lines 1-659) *)
Module Mongo.

(** A segment sub-document (schema lines 73-81); the mock subtitles of
    [generateMockSubtitles] set only [index] and [subtitleText]. *)
Record segment := mkSegment {
  seg_index : Z;
  seg_startTime : option Q;
  seg_duration : option Q;
  seg_storageKey : option string;
  seg_subtitleText : option string;
  seg_thumbnailUrl : option string }.

(** A job document (schema lines 46-88); [id] is its [_id]. *)
Record job := mkJob {
  id : string;
  userId : string;
  youtubeUrl : string;
  segmentDuration : Z;
  segmentCount : Z;
  subtitlesEnabled : bool;
  status : job_status;
  creditsUsed : Z;
  segments : list segment;
  createdAt : Z;
  expiresAt : Z;
  completedAt : option Z }.

Record user := mkUser { uid : string; email : string; credits : Z }.

(** The world: both collections, every content of the jobs collection
    after a write (oldest first), the temporary directories
    [./temp/<id>_<stamp>] on disk, the keys in the bucket, [Date.now()] and
    what [ffprobe] reports for a downloaded file. *)
Record world := mkWorld {
  users : list user;
  jobs : list job;
  history : list (list job);
  tmpdirs : list (string * Z);
  storage : list string;
  clock : Z;
  probe : Q }.

Definition set_users (us : list user) (w : world) : world :=
  mkWorld us (jobs w) (history w) (tmpdirs w) (storage w) (clock w) (probe w).
Definition set_jobs (js : list job) (w : world) : world :=
  mkWorld (users w) js (history w ++ [js]) (tmpdirs w) (storage w) (clock w) (probe w).
Definition set_tmpdirs (ds : list (string * Z)) (w : world) : world :=
  mkWorld (users w) (jobs w) (history w) ds (storage w) (clock w) (probe w).
Definition set_storage (ks : list string) (w : world) : world :=
  mkWorld (users w) (jobs w) (history w) (tmpdirs w) ks (clock w) (probe w).

Definition with_status (s : job_status) (j : job) : job :=
  mkJob (id j) (userId j) (youtubeUrl j) (segmentDuration j) (segmentCount j)
        (subtitlesEnabled j) s (creditsUsed j) (segments j) (createdAt j) (expiresAt j)
        (completedAt j).
Definition with_segments (segs : list segment) (j : job) : job :=
  mkJob (id j) (userId j) (youtubeUrl j) (segmentDuration j) (segmentCount j)
        (subtitlesEnabled j) (status j) (creditsUsed j) segs (createdAt j) (expiresAt j)
        (completedAt j).
Definition with_completed (now : Z) (j : job) : job :=
  mkJob (id j) (userId j) (youtubeUrl j) (segmentDuration j) (segmentCount j)
        (subtitlesEnabled j) completed (creditsUsed j) (segments j) (createdAt j) (expiresAt j)
        (Some now).
Definition with_credits (c : Z) (u : user) : user := mkUser (uid u) (email u) c.

Abbreviation M := (ST world).

Definition is_job (jid : string) (j : job) : bool := String.eqb (id j) jid.
Definition is_user (id' : string) (u : user) : bool := String.eqb (uid u) id'.

(** Replace the document with the same [_id], or insert it. *)
Definition upsert_job (j : job) (js : list job) : list job :=
  match find_index (is_job (id j)) js with
  | Some k => update_nth k (fun _ => j) js
  | None => js ++ [j]
  end.
Definition upsert_user (u : user) (us : list user) : list user :=
  match find_index (is_user (uid u)) us with
  | Some k => update_nth k (fun _ => u) us
  | None => us ++ [u]
  end.

(** The schema validators that can fail on a job built by the code:
    [youtubeUrl] required, [segmentDuration] in [15, 30, 60],
    [segmentCount] between 1 and 20. *)
Definition valid_job (j : job) : bool :=
  negb (String.eqb (youtubeUrl j) "")
  && (Z.eqb (segmentDuration j) 15 || Z.eqb (segmentDuration j) 30 || Z.eqb (segmentDuration j) 60)
  && (1 <=? segmentCount j)%Z && (segmentCount j <=? 20)%Z.

(** [job.save()]: validation first, then the database write. *)
Definition save_job (j : job) : M unit :=
  if valid_job j then io ;;; modify (fun w => set_jobs (upsert_job j (jobs w)) w)
  else throw.
(** [user.save()] *)
Definition save_user (u : user) : M unit :=
  io ;;; modify (fun w => set_users (upsert_user u (users w)) w).
(** [Job.findById] / [User.findById] *)
Definition findJobById (jid : string) : M (option job) :=
  io ;;; w <- get ;; ret (find (is_job jid) (jobs w)).
Definition findUserById (id' : string) : M (option user) :=
  io ;;; w <- get ;; ret (find (is_user id') (users w)).

(** [PRICES[segmentDuration] || 5], lines 94 and 247. *)
Definition PRICES (segmentDuration : Z) : Z :=
  if Z.eqb segmentDuration 15 then 2
  else if Z.eqb segmentDuration 30 then 5
  else if Z.eqb segmentDuration 60 then 8
  else 5.

(** The body of [POST /api/jobs] (line 244) after defaults. *)
Record job_request := mkRequest {
  rq_youtubeUrl : string;
  rq_segmentDuration : Z;
  rq_segmentCount : Z;
  rq_subtitlesEnabled : bool }.

Inductive response :=
  | R401
  | R402
  | R404
  | R500
  | R200_job (j : job)
  | R200_view (j : job) (segs : list (segment * option (signed_url * signed_url))) (expiresIn : Z).

(** [authMiddleware], lines 108-121, after [jwt.verify]. *)
Definition authMiddleware (userId : string) : M (option user) :=
  r <- attempt (findUserById userId) ;;
  match r with
  | Ok uo => ret uo
  | Err => ret None
  end.

(** [POST /api/jobs], lines 242-291; [objectId] is the [_id] mongoose
    assigns to the new document.  The background task it starts is run as
    a separate event ([processJobInBackground]). *)
Definition create_job (u : user) (rq : job_request) (objectId : string) : M response :=
  let costPerSegment := PRICES (rq_segmentDuration rq) in
  let totalCost := (costPerSegment * rq_segmentCount rq)%Z in
  if (credits u <? totalCost)%Z then ret R402 else
  let u' := with_credits (credits u - totalCost)%Z u in
  save_user u' ;;;
  w <- get ;;
  let job := mkJob objectId (uid u) (rq_youtubeUrl rq) (rq_segmentDuration rq)
               (rq_segmentCount rq) (rq_subtitlesEnabled rq) pending totalCost []
               (clock w) (clock w + 7 * day_ms)%Z None in
  save_job job ;;;
  ret (R200_job job).

Definition post_jobs (userId : string) (rq : job_request) (objectId : string) : M response :=
  au <- authMiddleware userId ;;
  match au with
  | None => ret R401
  | Some u => try_catch (create_job u rq objectId) (ret R500)
  end.

(** [uploadToStorage], lines 593-606: [fs.readFile], then [s3Client.send]. *)
Definition uploadToStorage (key : string) : M unit :=
  io ;;; io ;;; modify (fun w => set_storage (key :: storage w) w).

(** [getVideoDuration], lines 573-580. *)
Definition getVideoDuration : M Q := io ;;; w <- get ;; ret (probe w).

(** [generateMockSubtitles], lines 582-591. *)
Definition generateMockSubtitles (segmentDuration segmentCount : Z) : list segment :=
  map (fun i => let k := (Z.of_nat i + 1)%Z in
                mkSegment k None None None
                  (Some ("Short #" ++ string_of_Z k ++ " | " ++ string_of_Z segmentDuration
                         ++ "s | Generated automatically")) None)
      (seq 0 (Z.to_nat segmentCount)).

(** [processSegment], lines 470-557: ffmpeg conversion, screenshot, two
    uploads. *)
Definition processSegment (jobId : string) (index : Z) (segmentDuration : Z)
    (totalSegments : Z) (videoDuration : Q) (subtitlesEnabled : bool)
    (subtitleText : option string) : M segment :=
  let '(startTime, duration) :=
    mongo_segment_window videoDuration totalSegments index (inject_Z segmentDuration) in
  let segmentKey := mongo_segmentKey jobId index in
  let thumbKey := mongo_thumbKey jobId index in
  io ;;;                                  (* ffmpeg ... .save(outputFile) *)
  io ;;;                                  (* screenshots *)
  uploadToStorage segmentKey ;;;
  uploadToStorage thumbKey ;;;
  ret (mkSegment index (Some startTime) (Some duration) (Some segmentKey)
         (if subtitlesEnabled then subtitleText else None) (Some thumbKey)).

(** [job.segments[i] = job.segments[i] || {}; Object.assign(job.segments[i], segment)]:
    every field is overwritten, and index [i] is at most the length. *)
Definition assign_segment (i : nat) (s : segment) (segs : list segment) : list segment :=
  if Nat.ltb i (length segs) then update_nth i (fun _ => s) segs else segs ++ [s].

(** The segment loop, lines 423-440, from [i] with [n] iterations left. *)
Fixpoint segment_loop (job : job) (i n : nat) : M Mongo.job :=
  match n with
  | O => ret job
  | S n' =>
      videoDuration <- getVideoDuration ;;
      let index := (Z.of_nat i + 1)%Z in
      s <- processSegment (id job) index (segmentDuration job) (segmentCount job)
             videoDuration (subtitlesEnabled job)
             (if subtitlesEnabled job
              then Some ("Segment " ++ string_of_Z index ++ " - Generated by Shorts Pro")
              else None) ;;
      segment_loop (with_segments (assign_segment i s (segments job)) job) (S i) n'
  end.

(** The [try] block of [processJobInBackground], lines 384-450. *)
Definition pipeline (jobId : string) : M unit :=
  jo <- findJobById jobId ;;
  match jo with
  | None => ret tt
  | Some job0 =>
      let job1 := with_status downloading job0 in
      save_job job1 ;;;
      w <- get ;;
      let tempDir := (jobId, clock w) in
      io ;;; modify (fun w => set_tmpdirs (tempDir :: tmpdirs w) w) ;;;  (* fs.mkdir *)
      io ;;;                                                           (* exec download *)
      let job2 := with_status processing job1 in
      save_job job2 ;;;
      job3 <- (if subtitlesEnabled job2
               then io ;;;                                             (* extractAudio *)
                    ret (with_segments (generateMockSubtitles (segmentDuration job2)
                                          (segmentCount job2)) job2)
               else ret job2) ;;
      job4 <- segment_loop job3 0 (Z.to_nat (segmentCount job3)) ;;
      w' <- get ;;
      let job5 := with_completed (clock w') job4 in
      save_job job5 ;;;
      io ;;; modify (fun w => set_tmpdirs (filter (fun d => negb (dir_eqb tempDir d)) (tmpdirs w)) w)
                                                                       (* fs.rm(tempDir) *)
  end.

(** The [catch] block, lines 452-467: the failure handler. *)
Definition failure_handler (jobId : string) : M unit :=
  jo <- findJobById jobId ;;
  match jo with
  | None => ret tt
  | Some job =>
      save_job (with_status failed job) ;;;
      uo <- findUserById (userId job) ;;
      match uo with
      | None => ret tt
      | Some user => save_user (with_credits (credits user + creditsUsed job)%Z user)
      end
  end.

(** [processJobInBackground(jobId)], lines 383-468. *)
Definition processJobInBackground (jobId : string) : M unit :=
  try_catch (pipeline jobId) (failure_handler jobId).

(** The sweeper's selection (lines 622-626): [createdAt < sevenDaysAgo]
    and [status = 'completed']. *)
Definition selected (now : Z) (j : job) : bool :=
  (createdAt j <? now - 7 * day_ms)%Z && status_eqb (status j) completed.

(** [if (segment.storageKey)]: an absent or empty key is falsy. *)
Definition truthy (o : option string) : option string :=
  match o with
  | Some k => if String.eqb k "" then None else Some k
  | None => None
  end.

(** Deleting one segment's object (lines 630-642).  This version imports
    only [S3Client], [PutObjectCommand] and [GetObjectCommand] (line 17):
    [new DeleteObjectCommand(...)] throws a ReferenceError before
    [s3Client.send] is reached, and the inner [catch] logs it.  The bucket
    is left as it is. *)
Definition delete_segment_object (s : segment) : M unit :=
  match truthy (seg_storageKey s) with
  | Some key =>
      r <- attempt (throw (A := unit)) ;;
      ret tt
  | None => ret tt
  end.

Fixpoint delete_segment_objects (segs : list segment) : M unit :=
  match segs with
  | [] => ret tt
  | s :: rest => delete_segment_object s ;;; delete_segment_objects rest
  end.

(** [job.deleteOne()] *)
Definition deleteOne (j : job) : M unit :=
  io ;;; modify (fun w => set_jobs (filter (fun x => negb (is_job (id j) x)) (jobs w)) w).

Fixpoint sweep_jobs (oldJobs : list job) : M unit :=
  match oldJobs with
  | [] => ret tt
  | j :: rest => delete_segment_objects (segments j) ;;; deleteOne j ;;; sweep_jobs rest
  end.

(** The daily [setInterval] task, lines 620-651. *)
Definition cleanup_task : M unit :=
  try_catch
    (w <- get ;;
     oldJobs <- (io ;;; ret (filter (selected (clock w)) (jobs w))) ;;
     sweep_jobs oldJobs)
    (ret tt).

(** [generateSignedUrl], lines 608-615. *)
Definition generateSignedUrl (key : string) (ttl : Z) : M signed_url :=
  io ;;; ret (mkUrl key ttl).

(** The [Promise.all] over the segments of a completed job (lines 311-329):
    the first rejection rejects the whole request. *)
Fixpoint sign_segments (segs : list segment) : M (list (segment * option (signed_url * signed_url))) :=
  match segs with
  | [] => ret []
  | s :: rest =>
      v <- match truthy (seg_storageKey s) with
           | Some key =>
               previewUrl <- generateSignedUrl key (7 * 24 * 60 * 60)%Z ;;
               downloadUrl <- generateSignedUrl key (24 * 60 * 60)%Z ;;
               ret (s, Some (previewUrl, downloadUrl))
           | None => ret (s, None)
           end ;;
      vs <- sign_segments rest ;;
      ret (v :: vs)
  end.

(** Mongoose casts [req.params.id] to the [ObjectId] of [_id] (mongoose 7,
    bson 5): the string must have 12 characters, each encoded on one byte,
    or be 24 hexadecimal digits.  Any other string makes the query reject
    with a CastError before the database is reached. *)
Definition is_hex_digit (c : ascii) : bool :=
  let n := nat_of_ascii c in
  (Nat.leb 48 n && Nat.leb n 57) || (Nat.leb 65 n && Nat.leb n 70) || (Nat.leb 97 n && Nat.leb n 102).
Fixpoint all_chars (p : ascii -> bool) (s : string) : bool :=
  match s with
  | EmptyString => true
  | String c s' => p c && all_chars p s'
  end.
Definition castObjectId (s : string) : bool :=
  (Nat.eqb (String.length s) 12 && all_chars (fun c => Nat.ltb (nat_of_ascii c) 128) s)
  || (Nat.eqb (String.length s) 24 && all_chars is_hex_digit s).

(** [GET /api/jobs/:id], lines 294-345: [Job.findOne({_id, userId})]. *)
Definition get_job_handler (u : user) (jobIdParam : string) : M response :=
  job <- (if castObjectId jobIdParam
          then io ;;; w <- get ;;
               ret (find (fun j => is_job jobIdParam j && String.eqb (userId j) (uid u)) (jobs w))
          else throw) ;;
  match job with
  | None => ret R404
  | Some job =>
      segs <- (if status_eqb (status job) completed && negb (Nat.eqb (length (segments job)) 0)
               then sign_segments (segments job)
               else ret []) ;;
      w <- get ;;
      ret (R200_view job segs (ceil_days (expiresAt job - clock w)%Z))
  end.

Definition get_job (userId jobIdParam : string) : M response :=
  au <- authMiddleware userId ;;
  match au with
  | None => ret R401
  | Some u => try_catch (get_job_handler u jobIdParam) (ret R500)
  end.

End Mongo.

(** * Concrete scenarios *)

(** The owner of [job_1] is [user_2]; [user_1] asks for it. *)
Definition fw_two_owners : FileDb.world :=
  FileDb.mkWorld
    [FileDb.mkUser "user_1" "a@x.org" 100; FileDb.mkUser "user_2" "b@x.org" 75]
    [FileDb.mkJob "job_1" "user_2" "https://youtu.be/v" "Video" 300 completed 25 []
                  0 (7 * day_ms) (Some 10%Z)]
    [] [] [] 1000 ("Video", 300) 300.

(** A Mongo world with one valid job [j1] of [u1], 25 credits reserved. *)
Definition mj1 : Mongo.job :=
  Mongo.mkJob "j1" "u1" "https://youtu.be/v" 30 5 false processing 25 [] 0 (7 * day_ms) None.
Definition mu1 : Mongo.user := Mongo.mkUser "u1" "a@x.org" 75.
Definition mw_one_job : Mongo.world :=
  Mongo.mkWorld [mu1] [mj1] [] [] [] 1000 300.

(** Fresh worlds: one user with 100 credits and no job. *)
Definition mw_fresh : Mongo.world :=
  Mongo.mkWorld [Mongo.mkUser "u1" "a@x.org" 100] [] [] [] [] 1000 300.
Definition fw_fresh : FileDb.world :=
  FileDb.mkWorld [FileDb.mkUser "user_1" "a@x.org" 100] [] [] [] [] 1000 ("Video", 300) 300.

(** A request whose [segmentDuration] (45) the job schema rejects. *)
Definition rq_bad_duration : Mongo.job_request :=
  Mongo.mkRequest "https://youtu.be/v" 45 3 true.

(** A sweep eight days after [old] was created and seven days after
    [edge] was; both are completed, each with a clip and a thumbnail. *)
Definition mw_sweep : Mongo.world :=
  Mongo.mkWorld []
    [Mongo.mkJob "old" "u1" "https://youtu.be/v" 30 1 false completed 5
       [Mongo.mkSegment 1 (Some 0) (Some 30) (Some "shorts/old/segment_1.mp4") None
                        (Some "shorts/old/thumb_1.jpg")]
       0 (7 * day_ms) (Some 10%Z);
     Mongo.mkJob "edge" "u1" "https://youtu.be/v" 30 1 false completed 5
       [Mongo.mkSegment 1 (Some 0) (Some 30) (Some "shorts/edge/segment_1.mp4") None
                        (Some "shorts/edge/thumb_1.jpg")]
       day_ms (8 * day_ms) (Some (day_ms + 10))%Z]
    [] []
    ["shorts/old/segment_1.mp4"; "shorts/old/thumb_1.jpg"; "shorts/edge/segment_1.mp4";
     "shorts/edge/thumb_1.jpg"]
    (8 * day_ms) 300.

(** A pending job of the JSON-file version, as [POST /api/jobs] stores it. *)
Definition fj_pending : FileDb.job :=
  FileDb.mkJob "job_1" "user_1" "https://youtu.be/v" "Video" 300 pending 25 []
               1000 (1000 + 7 * day_ms) None.
Definition fw_pending : FileDb.world :=
  FileDb.mkWorld [FileDb.mkUser "user_1" "a@x.org" 75] [fj_pending] [] [] [] 1000
                 ("Video", 300) 300.

(** A pending Mongo job [j1] of [u1], as [POST /api/jobs] stores it. *)
Definition mw_pending : Mongo.world :=
  Mongo.mkWorld [mu1] [Mongo.with_status pending mj1] [] [] [] 1000 300.

(** * Credit safety of serial runs *)

(** [safe Inv m Q]: from a world satisfying [Inv], [m] ends in a world
    satisfying [Inv], and its result, when it returns, satisfies [Q]. *)
Definition safe {W A} (Inv : W -> Prop) (m : ST W A) (Q : A -> Prop) : Prop :=
  forall w fs, Inv w ->
  let '(r, (w', _)) := m (w, fs) in Inv w' /\ match r with Ok a => Q a | Err => True end.

(** Mongo: balances and reserved credits are non-negative. *)
Definition mongo_inv (w : Mongo.world) : Prop :=
  Forall (fun u => (0 <= Mongo.credits u)%Z) (Mongo.users w)
  /\ Forall (fun j => (0 <= Mongo.creditsUsed j)%Z) (Mongo.jobs w).

(** JSON file: balances are non-negative. *)
Definition file_inv (w : FileDb.world) : Prop :=
  Forall (fun u => (0 <= FileDb.credits u)%Z) (FileDb.users w).

(** Requests and background jobs run one after another, each with the
    outcomes of its own awaited calls. *)
Inductive mongo_event :=
  | MSubmit (userId : string) (rq : Mongo.job_request) (objectId : string)
  | MProcess (jobId : string)
  | MSweep.

Definition mongo_handle (e : mongo_event) : Mongo.M unit :=
  match e with
  | MSubmit u rq oid => Mongo.post_jobs u rq oid ;;; ret tt
  | MProcess jid => Mongo.processJobInBackground jid
  | MSweep => Mongo.cleanup_task
  end.

Fixpoint mongo_trace (es : list (mongo_event * list bool)) (w : Mongo.world) : Mongo.world :=
  match es with
  | [] => w
  | (e, fs) :: es' => mongo_trace es' (snd (run (mongo_handle e) w fs))
  end.

Inductive file_event :=
  | FSubmit (userId youtubeUrl : string)
  | FProcess (j : FileDb.job).

Definition file_handle (e : file_event) : FileDb.M unit :=
  match e with
  | FSubmit u url => FileDb.post_jobs u url ;;; ret tt
  | FProcess j => FileDb.processJobInBackground j
  end.

Fixpoint file_trace (es : list (file_event * list bool)) (w : FileDb.world) : FileDb.world :=
  match es with
  | [] => w
  | (e, fs) :: es' => file_trace es' (snd (run (file_handle e) w fs))
  end.

(** A Mongo run: a submission of 5 segments of 30 s, its processing whose
    download rejects, the same job processed again, then a sweep.  A
    JSON-file run: a submission, then the processing of a pending job. *)
Definition mes_demo : list (mongo_event * list bool) :=
  [(MSubmit "u1" (Mongo.mkRequest "https://youtu.be/v" 30 5 false) "j1", []);
   (MProcess "j1", [false; false; false; true]);
   (MProcess "j1", []);
   (MSweep, [])].
Definition fes_demo : list (file_event * list bool) :=
  [(FSubmit "user_1" "https://youtu.be/v", []); (FProcess fj_pending, [])].

(** * Status sequences *)

(** The status of job [jid] in one content of the jobs collection. *)
Definition mongo_status_of (jid : string) (js : list Mongo.job) : option job_status :=
  option_map Mongo.status (find (Mongo.is_job jid) js).
Definition file_status_of (jid : string) (js : list FileDb.job) : option job_status :=
  option_map FileDb.status (find (FileDb.is_job jid) js).

(** The statuses written by the [try] block of the Mongo version, by its
    [catch] block, and by a whole run of [processJobInBackground]. *)
Definition mongo_pipeline_runs : list (list job_status) :=
  [[]; [downloading]; [downloading; processing]; [downloading; processing; completed]].
Definition mongo_handler_runs : list (list job_status) := [[]; [failed]].
Definition mongo_runs : list (list job_status) :=
  [[]; [downloading]; [downloading; processing]; [downloading; processing; completed];
   [failed]; [downloading; failed]; [downloading; processing; failed];
   [downloading; processing; completed; failed]].
(** The statuses written by a run of the JSON-file version. *)
Definition file_runs : list (list job_status) :=
  [[]; [processing]; [processing; completed]; [processing; failed]; [failed]].

(** [String.prototype.includes]. *)
Fixpoint includes (s sub : string) : bool :=
  String.prefix sub s || match s with EmptyString => false | String _ s' => includes s' sub end.

(** * Further routes of the JSON-file version *)
Module FileRoutes.

(** [GET /api/jobs], lines 964-979: [filter] on the owner, [sort] with the
    comparator [(a, b) => new Date(b.createdAt) - new Date(a.createdAt)]
    (a stable sort, newest first; equal dates keep their order in
    [jobs.json]), [slice(0, 20)]. *)
Fixpoint insert_newest (j : FileDb.job) (l : list FileDb.job) : list FileDb.job :=
  match l with
  | [] => [j]
  | x :: l' => if (FileDb.createdAt x <=? FileDb.createdAt j)%Z then j :: l
               else x :: insert_newest j l'
  end.
Fixpoint sort_newest (l : list FileDb.job) : list FileDb.job :=
  match l with
  | [] => []
  | x :: l' => insert_newest x (sort_newest l')
  end.

Inductive list_response := L401 | L500 | L200 (jobs : list FileDb.job).

Definition list_jobs_handler (u : FileDb.user) : FileDb.M list_response :=
  jobs <- FileDb.readJobs ;;
  let userJobs := firstn 20 (sort_newest
                    (filter (fun j => String.eqb (FileDb.userId j) (FileDb.uid u)) jobs)) in
  ret (L200 userJobs).

Definition list_jobs (userId : string) : FileDb.M list_response :=
  au <- FileDb.authMiddleware userId ;;
  match au with
  | None => ret L401
  | Some u => try_catch (list_jobs_handler u) (ret L500)
  end.

(** [POST /api/preview], lines 847-888; [youtubeUrl] is [""] when absent. *)
Record preview := mkPreview {
  pv_videoTitle : string;
  pv_videoDuration : Q;
  pv_shortsCount : Z;
  pv_totalCost : Z;
  pv_userCredits : Z;
  pv_canAfford : bool;
  pv_estimatedTime : Z }.

Inductive preview_response := P400 | P401 | P500 | P200 (p : preview).

Definition preview_handler (u : FileDb.user) (youtubeUrl : string) : FileDb.M preview_response :=
  if String.eqb youtubeUrl "" || negb (includes youtubeUrl "youtu") then ret P400 else
  videoInfo <- try_catch (io ;;; w <- get ;; ret (FileDb.remote w))
                         (ret ("YouTube Video", 300%Q)) ;;
  let totalCost := 25%Z in
  let canAfford := (totalCost <=? FileDb.credits u)%Z in
  ret (P200 (mkPreview (str_or (fst videoInfo) "YouTube Video") (num_or (snd videoInfo) 300)
                       5 totalCost (FileDb.credits u) canAfford 120)).

Definition post_preview (userId youtubeUrl : string) : FileDb.M preview_response :=
  au <- FileDb.authMiddleware userId ;;
  match au with
  | None => ret P401
  | Some u => try_catch (preview_handler u youtubeUrl) (ret P500)
  end.

End FileRoutes.

(** * Registration and login of the JSON-file version *)

(** [POST /api/register] and [POST /api/login] (lines 767-844) read and
    write [users.json] only; an entry there also carries the bcrypt hash of
    the password and the creation date.  [bcrypt.hash] and [bcrypt.compare]
    are the parameters [hash] and [compare]. *)
Module FileAuth.

Record account := mkAccount {
  id : string;
  email : string;
  password : string;
  credits : Z;
  createdAt : Z }.

Record world := mkWorld { users : list account; clock : Z }.

Abbreviation M := (ST world).

Definition readUsers : M (list account) := io ;;; w <- get ;; ret (users w).
Definition writeUsers (us : list account) : M unit :=
  io ;;; modify (fun w => mkWorld us (clock w)).

(** The user part of a successful answer, and the [userId] of its token. *)
Inductive auth_response := A400 | A401 | A500 | A200 (userId email : string) (credits : Z).

(** The same entry, as [authMiddleware] and the job routes read it. *)
Definition to_user (a : account) : FileDb.user := FileDb.mkUser (id a) (email a) (credits a).

Section Bcrypt.
Variable hash : string -> string.
Variable compare : string -> string -> bool.

Definition register (email' password' : string) : M auth_response :=
  try_catch
    (users <- readUsers ;;
     if existsb (fun u => String.eqb (email u) email') users then ret A400 else
     w <- get ;;
     let userId := "user_" ++ string_of_Z (clock w) in
     hashedPassword <- (io ;;; ret (hash password')) ;;
     let newUser := mkAccount userId email' hashedPassword 100 (clock w) in
     writeUsers (users ++ [newUser])%list ;;;
     ret (A200 userId email' 100))
    (ret A500).

Definition login (email' password' : string) : M auth_response :=
  try_catch
    (users <- readUsers ;;
     match find (fun u => String.eqb (email u) email') users with
     | None => ret A401
     | Some user =>
         isValid <- (io ;;; ret (compare password' (password user))) ;;
         if isValid then ret (A200 (id user) (email user) (credits user)) else ret A401
     end)
    (ret A500).

End Bcrypt.

End FileAuth.

(** * Further routes of the MongoDB version *)
Module MongoRoutes.

(** [POST /api/preview], lines 196-239, on a request after the defaults
    of line 198 whose [youtubeUrl] is a string (without one, [includes]
    throws and the answer is 500); [remote] is what
    [youtube-dl --dump-json] returns (title, duration).  The float
    [estimatedTime] is not modelled. *)
Record preview := mkPreview {
  pv_videoTitle : string;
  pv_videoDuration : Q;
  pv_segmentDuration : Z;
  pv_segmentCount : Z;
  pv_subtitlesEnabled : bool;
  pv_costPerSegment : Z;
  pv_totalCost : Z;
  pv_userCredits : Z;
  pv_canAfford : bool }.

Inductive preview_response := P400 | P401 | P500 | P200 (p : preview).

Definition preview_handler (remote : string * Q) (u : Mongo.user) (rq : Mongo.job_request)
    : Mongo.M preview_response :=
  let youtubeUrl := Mongo.rq_youtubeUrl rq in
  if negb (includes youtubeUrl "youtube.com") && negb (includes youtubeUrl "youtu.be")
  then ret P400 else
  videoInfo <- try_catch (io ;;; ret remote) (ret ("Unknown", 300%Q)) ;;
  let costPerSegment := Mongo.PRICES (Mongo.rq_segmentDuration rq) in
  let totalCost := (costPerSegment * Mongo.rq_segmentCount rq)%Z in
  let canAfford := (totalCost <=? Mongo.credits u)%Z in
  ret (P200 (mkPreview (str_or (fst videoInfo) "YouTube Video") (num_or (snd videoInfo) 300)
                       (Mongo.rq_segmentDuration rq) (Mongo.rq_segmentCount rq)
                       (Mongo.rq_subtitlesEnabled rq) costPerSegment totalCost
                       (Mongo.credits u) canAfford)).

Definition post_preview (remote : string * Q) (userId : string) (rq : Mongo.job_request)
    : Mongo.M preview_response :=
  au <- Mongo.authMiddleware userId ;;
  match au with
  | None => ret P401
  | Some u => try_catch (preview_handler remote u rq) (ret P500)
  end.

End MongoRoutes.

(** * Definitions used to state properties of the further code *)

(** [u.email === email] *)
Definition has_email (e : string) (a : FileAuth.account) : bool := String.eqb (FileAuth.email a) e.

(** The order of [GET /api/jobs]: newest first. *)
Definition newer_first (a b : FileDb.job) : Prop := (FileDb.createdAt b <= FileDb.createdAt a)%Z.

(** Segment [k + 1] as the Mongo segment loop leaves it in [job.segments[k]]. *)
Definition mongo_seg_layout (job : Mongo.job) (k : nat) (s : Mongo.segment) : Prop :=
  let index := (Z.of_nat k + 1)%Z in
  Mongo.seg_index s = index
  /\ Mongo.seg_duration s = Some (inject_Z (Mongo.segmentDuration job))
  /\ Mongo.seg_storageKey s = Some (mongo_segmentKey (Mongo.id job) index)
  /\ Mongo.seg_thumbnailUrl s = Some (mongo_thumbKey (Mongo.id job) index)
  /\ Mongo.seg_subtitleText s =
       (if Mongo.subtitlesEnabled job
        then Some ("Segment " ++ string_of_Z index ++ " - Generated by Shorts Pro")
        else None).

(** The short numbered [k + 1] pushed by the JSON-file loop. *)
Definition file_short (j : FileDb.job) (d : Q) (k : nat) : FileDb.segment :=
  let '(st, sd) := file_segment_window d k in
  FileDb.mkSegment (Z.of_nat k + 1) st sd
    (file_videoKey (FileDb.userId j) (FileDb.id j) k) (file_thumbKey (FileDb.userId j) (FileDb.id j) k).

(** The bucket after the two uploads of iteration [k]. *)
Definition file_push_keys (j : FileDb.job) (ks : list string) (k : nat) : list string :=
  file_thumbKey (FileDb.userId j) (FileDb.id j) k :: file_videoKey (FileDb.userId j) (FileDb.id j) k :: ks.

(** The Mongo jobs whose [_id] is not [jid], in order. *)
Definition others (jid : string) (js : list Mongo.job) : list Mongo.job :=
  filter (fun x => negb (Mongo.is_job jid x)) js.

(** JSON file: [users.json] is [U] and the jobs with another id than [jid] are [F]. *)
Definition file_frame (jid : string) (U : list FileDb.user) (F : list FileDb.job)
    (w : FileDb.world) : Prop :=
  FileDb.users w = U /\ filter (fun x => negb (FileDb.is_job jid x)) (FileDb.jobs w) = F.

(** The two expiries of a signed pair: 7 days and 1 day. *)
Definition file_ttls_ok (v : FileDb.segment * option (signed_url * signed_url)) : Prop :=
  match snd v with
  | Some (p, d) => url_ttl p = (7 * 24 * 60 * 60)%Z /\ url_ttl d = (24 * 60 * 60)%Z
  | None => True
  end.

(** A Mongo segment is signed exactly when its key is truthy, with that key. *)
Definition mongo_sign_ok (v : Mongo.segment * option (signed_url * signed_url)) : Prop :=
  match snd v with
  | Some (p, d) =>
      Mongo.truthy (Mongo.seg_storageKey (fst v)) = Some (url_key p)
      /\ url_key d = url_key p
      /\ url_ttl p = (7 * 24 * 60 * 60)%Z /\ url_ttl d = (24 * 60 * 60)%Z
  | None => Mongo.truthy (Mongo.seg_storageKey (fst v)) = None
  end.

(** The job [POST /api/jobs] of the JSON-file version stores for user [x]
    when the video lookup succeeds. *)
Definition file_new_job (w : FileDb.world) (x : FileDb.user) (url : string) : FileDb.job :=
  FileDb.mkJob ("job_" ++ string_of_Z (FileDb.clock w)) (FileDb.uid x) url
    (str_or (fst (FileDb.remote w)) "YouTube Video") (num_or (snd (FileDb.remote w)) 300)
    pending 25 [] (FileDb.clock w) (FileDb.clock w + 7 * day_ms)%Z None.

(** [users[userIndex].credits -= totalCost] *)
Definition file_debit (x : FileDb.user) (us : list FileDb.user) : list FileDb.user :=
  match find_index (FileDb.is_user (FileDb.uid x)) us with
  | Some k => update_nth k (fun y => FileDb.with_credits (FileDb.credits y - 25)%Z y) us
  | None => us
  end.

(** Scenarios for the further code: an account [user_1] created at 1;
    two pending JSON-file jobs with the same id [job_1000], of [user_1] and
    [user_2]. *)
Definition aw_one : FileAuth.world :=
  FileAuth.mkWorld [FileAuth.mkAccount "user_1" "a@x.org" "h" 100 1] 1000.
Definition fj_dup (owner : string) : FileDb.job :=
  FileDb.mkJob "job_1000" owner "https://youtu.be/v" "Video" 300 pending 25 [] 1000
               (1000 + 7 * day_ms) None.
Definition fw_dup : FileDb.world :=
  FileDb.mkWorld [FileDb.mkUser "user_1" "a@x.org" 75; FileDb.mkUser "user_2" "b@x.org" 75]
                 [fj_dup "user_1"; fj_dup "user_2"] [] [] [] 1000 ("Video", 300) 300.

(** * Proof tactics *)

(** Unfold the monad plumbing. *)
Ltac monad := cbv beta iota zeta delta [bind ret get modify io attempt try_catch throw run fst snd].

(** Case on each fault bit the computation consumes. *)
Ltac split_faults := monad; repeat (match goal with
  | |- context [match ?fs with nil => _ | cons _ _ => _ end] => is_var fs; destruct fs as [|[] fs]
  end; monad).

(** * General lemmas *)

Lemma Qmult_comm_syntactic (x y : Q) : x * y = y * x.
Proof.
  destruct x as [a b], y as [c d]; unfold Qmult; simpl.
  now rewrite Z.mul_comm, Pos.mul_comm.
Qed.

Lemma seg_window_start_mongo (D : Q) (N : Z) (i : nat) (S : Q) :
  mongo_segment_window D N (Z.of_nat i + 1)%Z S = (spec_start D N (Z.of_nat i + 1)%Z, S).
Proof.
  unfold mongo_segment_window, spec_start. now rewrite Qmult_comm_syntactic.
Qed.

Lemma seg_window_start_file (D : Q) (i : nat) :
  file_segment_window D i = (spec_start D file_segmentCount (Z.of_nat i + 1)%Z, file_segmentDuration).
Proof.
  unfold file_segment_window, spec_start.
  now replace (Z.of_nat i + 1 - 1)%Z with (Z.of_nat i) by lia.
Qed.

Lemma slash_split (a b r r' : string) :
  no_slash a = true -> no_slash b = true ->
  a ++ "/" ++ r = b ++ "/" ++ r' -> a = b /\ r = r'.
Proof.
  revert b. induction a as [|c a IH]; intros b Ha Hb Heq; destruct b as [|c' b].
  - simpl in Heq. injection Heq as Heq. auto.
  - simpl in Heq, Hb. injection Heq as Hc Heq. subst c'.
    rewrite Ascii.eqb_refl in Hb. discriminate.
  - simpl in Heq, Ha. injection Heq as Hc Heq. subst c.
    rewrite Ascii.eqb_refl in Ha. discriminate.
  - simpl in Heq, Ha, Hb. injection Heq as Hc Heq. subst c'.
    apply andb_prop in Ha as [_ Ha]. apply andb_prop in Hb as [_ Hb].
    destruct (IH b Ha Hb Heq) as [-> ->]. auto.
Qed.

Lemma append_prefix_inj (p a b : string) : p ++ a = p ++ b -> a = b.
Proof.
  induction p as [|c p IH]; simpl; intros H; [exact H|].
  injection H as H. auto.
Qed.

(** [find] and [findIndex] agree. *)
Lemma find_index_None {A} (p : A -> bool) (l : list A) :
  find_index p l = None <-> find p l = None.
Proof.
  induction l as [|x l IH]; simpl; [tauto|].
  destruct (p x); [split; discriminate|].
  destruct (find_index p l); simpl; rewrite <- IH; split; congruence.
Qed.

(** Updating the element found by [findIndex] with a function that keeps
    it matching. *)
Lemma find_update_found {A} (p : A -> bool) (f : A -> A) (l : list A) :
  (forall x, p x = true -> p (f x) = true) ->
  find p (match find_index p l with Some k => update_nth k f l | None => l end)
  = option_map f (find p l).
Proof.
  intros Hf. induction l as [|x l IH]; simpl; [reflexivity|].
  destruct (p x) eqn:Hx.
  - simpl. now rewrite (Hf x Hx).
  - destruct (find_index p l) as [k|] eqn:Hk; simpl; rewrite Hx; [exact IH|].
    apply find_index_None in Hk. now rewrite Hk.
Qed.

Lemma find_update_other {A} (p q : A -> bool) (f : A -> A) (l : list A) :
  (forall x, q x = true -> p x = false) ->
  (forall x, p x = p (f x)) ->
  find p (match find_index q l with Some k => update_nth k f l | None => l end) = find p l.
Proof.
  intros Hqp Hf. induction l as [|x l IH]; simpl; [reflexivity|].
  destruct (q x) eqn:Hx.
  - simpl. rewrite <- Hf, (Hqp x Hx). reflexivity.
  - destruct (find_index q l) as [k|] eqn:Hk; simpl; [now rewrite IH|reflexivity].
Qed.

Lemma find_app_none {A} (p : A -> bool) (l1 l2 : list A) :
  find p l1 = None -> find p (l1 ++ l2) = find p l2.
Proof.
  induction l1 as [|x l1 IH]; simpl; [auto|]. destruct (p x); [discriminate|exact IH].
Qed.

Lemma mongo_find_upsert_job (j : Mongo.job) (js : list Mongo.job) :
  find (Mongo.is_job (Mongo.id j)) (Mongo.upsert_job j js) = Some j.
Proof.
  unfold Mongo.upsert_job.
  destruct (find_index (Mongo.is_job (Mongo.id j)) js) as [k|] eqn:Hk.
  - pose proof (find_update_found (Mongo.is_job (Mongo.id j)) (fun _ => j) js) as H.
    rewrite Hk in H. rewrite H.
    + destruct (find (Mongo.is_job (Mongo.id j)) js) eqn:Hf; [reflexivity|].
      apply find_index_None in Hf. congruence.
    + intros _ _. apply String.eqb_refl.
  - apply find_index_None in Hk. rewrite find_app_none by exact Hk.
    simpl. unfold Mongo.is_job. now rewrite String.eqb_refl.
Qed.

Lemma mongo_find_upsert_user (u : Mongo.user) (us : list Mongo.user) :
  find (Mongo.is_user (Mongo.uid u)) (Mongo.upsert_user u us) = Some u.
Proof.
  unfold Mongo.upsert_user.
  destruct (find_index (Mongo.is_user (Mongo.uid u)) us) as [k|] eqn:Hk.
  - pose proof (find_update_found (Mongo.is_user (Mongo.uid u)) (fun _ => u) us) as H.
    rewrite Hk in H. rewrite H.
    + destruct (find (Mongo.is_user (Mongo.uid u)) us) eqn:Hf; [reflexivity|].
      apply find_index_None in Hf. congruence.
    + intros _ _. apply String.eqb_refl.
  - apply find_index_None in Hk. rewrite find_app_none by exact Hk.
    simpl. unfold Mongo.is_user. now rewrite String.eqb_refl.
Qed.

(** * Segment planner *)

Lemma mongo_plan_spec (D : Q) (N : Z) (S : Q) :
  mongo_plan D N S
  = map (fun i => ((Z.of_nat i + 1)%Z, spec_start D N (Z.of_nat i + 1)%Z, S)) (seq 0 (Z.to_nat N)).
Proof.
  unfold mongo_plan. apply map_ext. intros i. now rewrite seg_window_start_mongo.
Qed.

Lemma file_plan_spec (D : Q) :
  file_plan D
  = map (fun i => ((Z.of_nat i + 1)%Z, spec_start D file_segmentCount (Z.of_nat i + 1)%Z,
                   file_segmentDuration)) (seq 0 (Z.to_nat file_segmentCount)).
Proof.
  unfold file_plan. apply map_ext. intros i. now rewrite seg_window_start_file.
Qed.

(** C5: both planners emit, for [i = 1 .. N], the start time
    [(D / N) * (i - 1)] (the file version has [N = 5], [S = 30]); for
    [D = 300, N = 5, S = 30] the start times are 0, 60, 120, 180, 240 and each
    satisfies [startTime + S <= D]. *)
Theorem C5_uniform_start_times :
  (forall (D : Q) (N : Z) (S : Q),
      mongo_plan D N S
      = map (fun i => ((Z.of_nat i + 1)%Z, spec_start D N (Z.of_nat i + 1)%Z, S))
            (seq 0 (Z.to_nat N)))
  /\ (forall D : Q,
      file_plan D
      = map (fun i => ((Z.of_nat i + 1)%Z, spec_start D 5 (Z.of_nat i + 1)%Z, 30))
            (seq 0 5))
  /\ Forall2 Qeq (starts (mongo_plan 300 5 30)) [0; 60; 120; 180; 240]
  /\ Forall (fun st => st + 30 <= 300) (starts (mongo_plan 300 5 30))
  /\ Forall2 Qeq (starts (file_plan 300)) [0; 60; 120; 180; 240]
  /\ Forall (fun st => st + file_segmentDuration <= 300) (starts (file_plan 300)).
Proof.
  split; [exact mongo_plan_spec|].
  split; [exact file_plan_spec|].
  vm_compute. repeat split; repeat constructor; discriminate.
Qed.

(** C4 fails: for [D = 100, N = 5, S = 30] the fifth window starts at 80,
    [80 + 30 > 100], and both versions still request 30 s instead of
    [max(0, 100 - 80) = 20]; for [D = 0] all five windows are emitted with
    30 s, no planner error exists. *)
Lemma C4_counterexample :
  (let '(_, st, d) := nth 4 (file_plan 100) (0%Z, 0, 0) in
   st == 80 /\ 100 < st + file_segmentDuration /\ ~ (d == Qmax 0 (100 - st)))
  /\ (let '(_, st, d) := nth 4 (mongo_plan 100 5 30) (0%Z, 0, 0) in
      st == 80 /\ 100 < st + 30 /\ ~ (d == Qmax 0 (100 - st)))
  /\ durations (file_plan 0) = [30; 30; 30; 30; 30].
Proof.
  vm_compute. repeat split; try reflexivity; discriminate.
Qed.

(** C4 as the code does it: no clamping and no error: every one of the
    [N] planned windows requests the configured duration [S] (the job's
    [segmentDuration] in the Mongo version, 30 s in the file version),
    whatever [D]. *)
Theorem C4_no_clamp (D : Q) (N : Z) (S : Q) :
  durations (mongo_plan D N S) = repeat S (Z.to_nat N)
  /\ length (mongo_plan D N S) = Z.to_nat N
  /\ durations (file_plan D) = repeat file_segmentDuration 5
  /\ length (file_plan D) = 5%nat.
Proof.
  rewrite mongo_plan_spec, file_plan_spec. unfold durations.
  rewrite !map_map, !length_map, !length_seq.
  rewrite (map_const S), (map_const file_segmentDuration), !length_seq.
  repeat split; reflexivity.
Qed.

(** * Storage keys *)

(** C8 fails: the keys are [shorts/{jobId}/...] (Mongo) and
    [users/{userId}/{jobId}/...] (file version), not
    [{ownerId}/{jobId}/{artifactName}]. *)
Lemma C8_counterexample :
  mongo_segmentKey "j1" 1 <> spec_key "u1" "j1" "segment_1.mp4"
  /\ file_videoKey "user_1" "job_1" 0 <> spec_key "user_1" "job_1" "short_1.mp4".
Proof. vm_compute. split; discriminate. Qed.

Lemma file_key_inj (u u' j j' n n' : string) :
  no_slash u = true -> no_slash u' = true -> no_slash j = true -> no_slash j' = true ->
  file_key u j n = file_key u' j' n' -> u = u' /\ j = j' /\ n = n'.
Proof.
  unfold file_key. intros Hu Hu' Hj Hj' H.
  apply append_prefix_inj in H.
  destruct (slash_split _ _ _ _ Hu Hu' H) as [-> H2].
  destruct (slash_split _ _ _ _ Hj Hj' H2) as [-> ->]. auto.
Qed.

Lemma mongo_key_inj (j j' n n' : string) :
  no_slash j = true -> no_slash j' = true ->
  mongo_key j n = mongo_key j' n' -> j = j' /\ n = n'.
Proof.
  unfold mongo_key. intros Hj Hj' H.
  apply append_prefix_inj in H. exact (slash_split _ _ _ _ Hj Hj' H).
Qed.

(** C8 as the code does it: with ids free of ['/'], file-version keys
    [users/{userId}/{jobId}/{name}] of artifacts that differ in owner, job
    or name are distinct, and Mongo keys [shorts/{jobId}/{name}] of
    artifacts that differ in job or name are distinct. *)
Theorem C8_keys_distinct (u u' j j' n n' : string)
  (Hu : no_slash u = true) (Hu' : no_slash u' = true)
  (Hj : no_slash j = true) (Hj' : no_slash j' = true) :
  ((u, j, n) <> (u', j', n') -> file_key u j n <> file_key u' j' n')
  /\ ((j, n) <> (j', n') -> mongo_key j n <> mongo_key j' n').
Proof.
  split; intros Hne Heq; apply Hne.
  - destruct (file_key_inj _ _ _ _ _ _ Hu Hu' Hj Hj' Heq) as [-> [-> ->]]. reflexivity.
  - destruct (mongo_key_inj _ _ _ _ Hj Hj' Heq) as [-> ->]. reflexivity.
Qed.

Lemma C8_keys_distinct_witness :
  no_slash "user_1" = true /\ no_slash "user_2" = true /\ no_slash "job_1" = true
  /\ file_key "user_1" "job_1" "short_1.mp4" <> file_key "user_2" "job_1" "short_1.mp4".
Proof.
  refine (conj eq_refl (conj eq_refl (conj eq_refl _))).
  refine (proj1 (C8_keys_distinct "user_1" "user_2" "job_1" "job_1" "short_1.mp4" "short_1.mp4"
                   eq_refl eq_refl eq_refl eq_refl) _).
  discriminate.
Defined.

(** * Reading a job *)

Lemma file_sign_segments_spec (segs : list FileDb.segment) (s : FileDb.world * list bool) :
  match FileDb.sign_segments segs s with
  | (Ok vs, (w', _)) =>
      w' = fst s
      /\ forall x p, In (x, Some p) vs ->
           In x segs /\ url_key (fst p) = FileDb.seg_storageKey x
           /\ url_key (snd p) = FileDb.seg_storageKey x
  | (Err, _) => True
  end.
Proof.
  revert s. induction segs as [|x segs IH]; intros [w fs]; simpl.
  - split; [reflexivity|]. intros ? ? [].
  - unfold FileDb.getSignedStorageUrl. split_faults;
    match goal with |- context [FileDb.sign_segments segs ?s0] =>
      pose proof (IH s0) as IH0; destruct (FileDb.sign_segments segs s0) as [[vs|] [w' fs']] end; auto;
    destruct IH0 as [-> IH0]; split; auto;
    intros y p [Hy|Hy]; try (injection Hy; intros; subst; simpl; auto; discriminate);
    destruct (IH0 y p Hy); simpl; auto.
Qed.

Lemma mongo_sign_segments_spec (segs : list Mongo.segment) (s : Mongo.world * list bool) :
  match Mongo.sign_segments segs s with
  | (Ok vs, (w', _)) =>
      w' = fst s
      /\ forall x p, In (x, Some p) vs ->
           In x segs /\ Some (url_key (fst p)) = Mongo.seg_storageKey x
           /\ Some (url_key (snd p)) = Mongo.seg_storageKey x
  | (Err, _) => True
  end.
Proof.
  revert s. induction segs as [|x segs IH]; intros [w fs]; simpl.
  - split; [reflexivity|]. intros ? ? [].
  - unfold Mongo.generateSignedUrl, Mongo.truthy.
    destruct (Mongo.seg_storageKey x) as [key|] eqn:Hk; [destruct (String.eqb key "")|]; split_faults;
    try exact I;
    match goal with |- context [Mongo.sign_segments ?l ?s0] =>
      pose proof (IH s0) as IH0; destruct (Mongo.sign_segments l s0) as [[vs|] [w' fs']] end; auto;
    destruct IH0 as [-> IH0]; split; auto;
    intros y p [Hy|Hy]; try (injection Hy; intros; subst; simpl; auto; discriminate);
    destruct (IH0 y p Hy); simpl; auto.
Qed.

Lemma file_get_job_view (requester jid : string) (w : FileDb.world) (fs : list bool) :
  match fst (run (FileDb.get_job requester jid) w fs) with
  | Ok (FileDb.R200_view j segs _) =>
      In j (FileDb.jobs w) /\ FileDb.userId j = requester /\ FileDb.id j = jid
      /\ (forall x p, In (x, Some p) segs ->
            In x (FileDb.segments j) /\ url_key (fst p) = FileDb.seg_storageKey x
            /\ url_key (snd p) = FileDb.seg_storageKey x)
  | Ok (FileDb.R200_job _) => False
  | _ => True
  end.
Proof.
  unfold FileDb.get_job, FileDb.authMiddleware, FileDb.readUsers, FileDb.get_job_handler, FileDb.readJobs.
  split_faults; destruct (find (FileDb.is_user requester) (FileDb.users w)) as [u|] eqn:Hu; split_faults; auto;
  destruct (find _ (FileDb.jobs w)) as [j|] eqn:Hj; monad; auto;
  apply find_some in Hj as [Hin Hp]; apply andb_prop in Hp as [Hid Hown];
  unfold FileDb.is_job in Hid; apply String.eqb_eq in Hid, Hown;
  (assert (FileDb.uid u = requester) as Hreq by (apply find_some in Hu as [_ Hu]; now apply String.eqb_eq in Hu));
  (destruct (status_eqb _ _ && _);
  [ match goal with |- context [FileDb.sign_segments ?l ?s0] =>
      pose proof (file_sign_segments_spec l s0) as S; destruct (FileDb.sign_segments l s0) as [[vs|] [w' fs']] end;
    monad; auto; destruct S as [_ S]
  | ]);
  (refine (conj Hin (conj (eq_trans Hown Hreq) (conj Hid _))));
  first [ exact S
        | intros x p Hx; apply in_map_iff in Hx as [y [Hy _]]; discriminate ].
Qed.

Lemma mongo_get_job_view (requester jid : string) (w : Mongo.world) (fs : list bool) :
  match fst (run (Mongo.get_job requester jid) w fs) with
  | Ok (Mongo.R200_view j segs _) =>
      In j (Mongo.jobs w) /\ Mongo.userId j = requester /\ Mongo.id j = jid
      /\ (forall x p, In (x, Some p) segs ->
            In x (Mongo.segments j) /\ Some (url_key (fst p)) = Mongo.seg_storageKey x
            /\ Some (url_key (snd p)) = Mongo.seg_storageKey x)
  | Ok (Mongo.R200_job _) => False
  | _ => True
  end.
Proof.
  unfold Mongo.get_job, Mongo.authMiddleware, Mongo.findUserById, Mongo.get_job_handler.
  destruct (Mongo.castObjectId jid) eqn:Hcast;
  [| split_faults; destruct (find (Mongo.is_user requester) (Mongo.users w)); split_faults; exact I].
  split_faults; destruct (find (Mongo.is_user requester) (Mongo.users w)) as [u|] eqn:Hu; split_faults; auto;
  destruct (find _ (Mongo.jobs w)) as [j|] eqn:Hj; monad; auto;
  apply find_some in Hj as [Hin Hp]; apply andb_prop in Hp as [Hid Hown];
  unfold Mongo.is_job in Hid; apply String.eqb_eq in Hid, Hown;
  (assert (Mongo.uid u = requester) as Hreq by (apply find_some in Hu as [_ Hu]; now apply String.eqb_eq in Hu));
  (destruct (status_eqb _ _ && _);
  [ match goal with |- context [Mongo.sign_segments ?l ?s0] =>
      pose proof (mongo_sign_segments_spec l s0) as S; destruct (Mongo.sign_segments l s0) as [[vs|] [w' fs']] end;
    monad; auto; destruct S as [_ S]
  | ]);
  (refine (conj Hin (conj (eq_trans Hown Hreq) (conj Hid _))));
  first [ exact S | intros x p [] ].
Qed.

Lemma file_get_job_not_found (requester jid : string) (w : FileDb.world) :
  (forall j, In j (FileDb.jobs w) -> FileDb.id j = jid -> FileDb.userId j <> requester) ->
  (exists u, In u (FileDb.users w) /\ FileDb.uid u = requester) ->
  fst (run (FileDb.get_job requester jid) w []) = Ok FileDb.R404.
Proof.
  intros Hno [u0 [Hu0 Hid0]].
  unfold FileDb.get_job, FileDb.authMiddleware, FileDb.readUsers, FileDb.get_job_handler, FileDb.readJobs.
  monad.
  destruct (find (FileDb.is_user requester) (FileDb.users w)) as [u|] eqn:Hu.
  - apply find_some in Hu as [_ Hu]. unfold FileDb.is_user in Hu. apply String.eqb_eq in Hu.
    monad. destruct (find _ (FileDb.jobs w)) as [j|] eqn:Hj; monad; [|reflexivity].
    apply find_some in Hj as [Hin Hp]. apply andb_prop in Hp as [Hid Hown].
    unfold FileDb.is_job in Hid. apply String.eqb_eq in Hid, Hown.
    exfalso. apply (Hno j Hin Hid). congruence.
  - exfalso. apply (find_none _ _ Hu) in Hu0. unfold FileDb.is_user in Hu0.
    rewrite Hid0, String.eqb_refl in Hu0. discriminate.
Qed.

Lemma mongo_get_job_not_found (requester jid : string) (w : Mongo.world) :
  Mongo.castObjectId jid = true ->
  (forall j, In j (Mongo.jobs w) -> Mongo.id j = jid -> Mongo.userId j <> requester) ->
  (exists u, In u (Mongo.users w) /\ Mongo.uid u = requester) ->
  fst (run (Mongo.get_job requester jid) w []) = Ok Mongo.R404.
Proof.
  intros Hcast Hno [u0 [Hu0 Hid0]].
  unfold Mongo.get_job, Mongo.authMiddleware, Mongo.findUserById, Mongo.get_job_handler.
  rewrite Hcast. monad.
  destruct (find (Mongo.is_user requester) (Mongo.users w)) as [u|] eqn:Hu.
  - apply find_some in Hu as [_ Hu]. unfold Mongo.is_user in Hu. apply String.eqb_eq in Hu.
    monad. destruct (find _ (Mongo.jobs w)) as [j|] eqn:Hj; monad; [|reflexivity].
    apply find_some in Hj as [Hin Hp]. apply andb_prop in Hp as [Hid Hown].
    unfold Mongo.is_job in Hid. apply String.eqb_eq in Hid, Hown.
    exfalso. apply (Hno j Hin Hid). congruence.
  - exfalso. apply (find_none _ _ Hu) in Hu0. unfold Mongo.is_user in Hu0.
    rewrite Hid0, String.eqb_refl in Hu0. discriminate.
Qed.

Lemma mongo_get_job_cast_error (requester jid : string) (w : Mongo.world) :
  Mongo.castObjectId jid = false ->
  (exists u, In u (Mongo.users w) /\ Mongo.uid u = requester) ->
  fst (run (Mongo.get_job requester jid) w []) = Ok Mongo.R500
  /\ snd (run (Mongo.get_job requester jid) w []) = w.
Proof.
  intros Hcast [u0 [Hu0 Hid0]].
  unfold Mongo.get_job, Mongo.authMiddleware, Mongo.findUserById, Mongo.get_job_handler.
  rewrite Hcast. monad.
  destruct (find (Mongo.is_user requester) (Mongo.users w)) as [u|] eqn:Hu; monad; [auto|].
  exfalso. apply (find_none _ _ Hu) in Hu0. unfold Mongo.is_user in Hu0.
  rewrite Hid0, String.eqb_refl in Hu0. discriminate.
Qed.

(** C10: [GET /api/jobs/:id] (both versions) answers with a job view only
    for a job of the store whose id is the requested one and whose owner is
    the requester, and the signed URLs it carries are those of that job's
    own segments.  When no job with that id belongs to the requester, an
    authenticated request whose reads succeed answers 404 in the JSON-file
    version, and in the Mongo version when the id casts to an [ObjectId];
    an id that does not cast (e.g. [abc]) makes [Job.findOne] reject with a
    CastError, and the Mongo route answers 500. *)
Theorem C10_get_job_owner_only (requester jid : string)
  (fw : FileDb.world) (ffs : list bool) (mw : Mongo.world) (mfs : list bool) :
  match fst (run (FileDb.get_job requester jid) fw ffs) with
  | Ok (FileDb.R200_view j segs _) =>
      In j (FileDb.jobs fw) /\ FileDb.userId j = requester /\ FileDb.id j = jid
      /\ (forall x p, In (x, Some p) segs ->
            In x (FileDb.segments j) /\ url_key (fst p) = FileDb.seg_storageKey x
            /\ url_key (snd p) = FileDb.seg_storageKey x)
  | Ok (FileDb.R200_job _) => False
  | _ => True
  end
  /\ match fst (run (Mongo.get_job requester jid) mw mfs) with
     | Ok (Mongo.R200_view j segs _) =>
         In j (Mongo.jobs mw) /\ Mongo.userId j = requester /\ Mongo.id j = jid
         /\ (forall x p, In (x, Some p) segs ->
               In x (Mongo.segments j) /\ Some (url_key (fst p)) = Mongo.seg_storageKey x
               /\ Some (url_key (snd p)) = Mongo.seg_storageKey x)
     | Ok (Mongo.R200_job _) => False
     | _ => True
     end
  /\ ((forall j, In j (FileDb.jobs fw) -> FileDb.id j = jid -> FileDb.userId j <> requester) ->
      (exists u, In u (FileDb.users fw) /\ FileDb.uid u = requester) ->
      fst (run (FileDb.get_job requester jid) fw []) = Ok FileDb.R404)
  /\ (Mongo.castObjectId jid = true ->
      (forall j, In j (Mongo.jobs mw) -> Mongo.id j = jid -> Mongo.userId j <> requester) ->
      (exists u, In u (Mongo.users mw) /\ Mongo.uid u = requester) ->
      fst (run (Mongo.get_job requester jid) mw []) = Ok Mongo.R404)
  /\ (Mongo.castObjectId jid = false ->
      (exists u, In u (Mongo.users mw) /\ Mongo.uid u = requester) ->
      fst (run (Mongo.get_job requester jid) mw []) = Ok Mongo.R500).
Proof.
  split; [apply file_get_job_view|].
  split; [apply mongo_get_job_view|].
  split; [apply file_get_job_not_found|].
  split; [apply mongo_get_job_not_found|].
  intros Hc Hu. exact (proj1 (mongo_get_job_cast_error requester jid mw Hc Hu)).
Qed.

Lemma C10_get_job_owner_only_witness :
  fst (run (FileDb.get_job "user_1" "job_1") fw_two_owners []) = Ok FileDb.R404.
Proof.
  refine (proj1 (proj2 (proj2 (C10_get_job_owner_only "user_1" "job_1" fw_two_owners []
                                 (Mongo.mkWorld [] [] [] [] [] 0 0) []))) _ _).
  - intros j [Hj|[]] _. subst j. simpl. discriminate.
  - exists (FileDb.mkUser "user_1" "a@x.org" 100). split; [left; reflexivity|reflexivity].
Defined.

(** C10, counterexample: [GET /api/jobs/abc] by [u1], who owns no job
    [abc], is answered 500 (the CastError of [Job.findOne]), not 404; an id
    that casts, with no job of [u1] behind it, is answered 404. *)
Lemma C10_counterexample :
  fst (run (Mongo.get_job "u1" "abc") mw_one_job []) = Ok Mongo.R500
  /\ fst (run (Mongo.get_job "u1" "64b7f0c2a1d3e4f5a6b7c8d9") mw_one_job []) = Ok Mongo.R404.
Proof. vm_compute. split; reflexivity. Qed.

(** * Failure handling and refunds *)

Lemma mongo_failure_handler_once (w : Mongo.world) (jid : string) (j : Mongo.job) (u : Mongo.user) :
  find (Mongo.is_job jid) (Mongo.jobs w) = Some j ->
  Mongo.valid_job j = true ->
  find (Mongo.is_user (Mongo.userId j)) (Mongo.users w) = Some u ->
  let w1 := snd (run (Mongo.failure_handler jid) w []) in
  find (Mongo.is_job jid) (Mongo.jobs w1) = Some (Mongo.with_status failed j)
  /\ find (Mongo.is_user (Mongo.userId j)) (Mongo.users w1)
     = Some (Mongo.with_credits (Mongo.credits u + Mongo.creditsUsed j)%Z u).
Proof.
  intros Hj Hv Hu.
  assert (Mongo.id j = jid) as Hid
    by (apply find_some in Hj as [_ Hj]; now apply String.eqb_eq in Hj).
  assert (Mongo.uid u = Mongo.userId j) as Huid
    by (apply find_some in Hu as [_ Hu]; now apply String.eqb_eq in Hu).
  unfold Mongo.failure_handler, Mongo.findJobById, Mongo.findUserById, Mongo.save_job, Mongo.save_user.
  monad. rewrite Hj.
  replace (Mongo.valid_job (Mongo.with_status failed j)) with true by (rewrite <- Hv; reflexivity).
  monad. simpl. rewrite Hu. monad. simpl. split.
  - rewrite <- Hid. apply (mongo_find_upsert_job (Mongo.with_status failed j)).
  - rewrite <- Huid. apply (mongo_find_upsert_user (Mongo.with_credits _ u)).
Qed.

(** C1.  No [refunded] flag exists: each run of the Mongo failure
    handler whose reads and saves succeed marks the job failed and adds
    [creditsUsed] to the owner's balance again, so a second run refunds a
    second time. *)
Theorem C1_refund_repeats (w : Mongo.world) (jid : string) (j : Mongo.job) (u : Mongo.user)
  (Hj : find (Mongo.is_job jid) (Mongo.jobs w) = Some j)
  (Hv : Mongo.valid_job j = true)
  (Hu : find (Mongo.is_user (Mongo.userId j)) (Mongo.users w) = Some u) :
  let w1 := snd (run (Mongo.failure_handler jid) w []) in
  let w2 := snd (run (Mongo.failure_handler jid) w1 []) in
  find (Mongo.is_job jid) (Mongo.jobs w1) = Some (Mongo.with_status failed j)
  /\ find (Mongo.is_user (Mongo.userId j)) (Mongo.users w1)
     = Some (Mongo.with_credits (Mongo.credits u + Mongo.creditsUsed j)%Z u)
  /\ find (Mongo.is_user (Mongo.userId j)) (Mongo.users w2)
     = Some (Mongo.with_credits (Mongo.credits u + Mongo.creditsUsed j + Mongo.creditsUsed j)%Z u).
Proof.
  intros w1 w2.
  destruct (mongo_failure_handler_once w jid j u Hj Hv Hu) as [H1 H2].
  split; [exact H1|]. split; [exact H2|].
  destruct (mongo_failure_handler_once w1 jid (Mongo.with_status failed j) _ H1 Hv H2) as [_ H4].
  exact H4.
Qed.


Lemma C1_refund_repeats_witness :
  let w1 := snd (run (Mongo.failure_handler "j1") mw_one_job []) in
  let w2 := snd (run (Mongo.failure_handler "j1") w1 []) in
  find (Mongo.is_job "j1") (Mongo.jobs w1) = Some (Mongo.with_status failed mj1)
  /\ find (Mongo.is_user "u1") (Mongo.users w1) = Some (Mongo.with_credits 100 mu1)
  /\ find (Mongo.is_user "u1") (Mongo.users w2) = Some (Mongo.with_credits 125 mu1).
Proof.
  exact (C1_refund_repeats mw_one_job "j1" mj1 mu1 eq_refl eq_refl eq_refl).
Defined.

(** C1, counterexample: [u1] holds 75 credits and [j1] reserved 25; two
    runs of the failure handler leave [u1] with 125, not 100. *)
Lemma C1_counterexample :
  Mongo.users (snd (run (Mongo.failure_handler "j1")
                      (snd (run (Mongo.failure_handler "j1") mw_one_job [])) []))
  = [Mongo.mkUser "u1" "a@x.org" 125].
Proof. vm_compute. reflexivity. Qed.

(** * Submitting a job *)

Lemma mongo_post_jobs_outcome (w : Mongo.world) (uid : string) (rq : Mongo.job_request)
    (oid : string) (fs : list bool) :
  let '(r, w') := run (Mongo.post_jobs uid rq oid) w fs in
  let cost := (Mongo.PRICES (Mongo.rq_segmentDuration rq) * Mongo.rq_segmentCount rq)%Z in
  (Mongo.users w' = Mongo.users w /\ Mongo.jobs w' = Mongo.jobs w
   /\ forall j, r <> Ok (Mongo.R200_job j))
  \/ (exists u, find (Mongo.is_user uid) (Mongo.users w) = Some u
       /\ Mongo.users w' = Mongo.upsert_user (Mongo.with_credits (Mongo.credits u - cost)%Z u) (Mongo.users w)
       /\ Mongo.jobs w' = Mongo.jobs w
       /\ forall j, r <> Ok (Mongo.R200_job j))
  \/ (exists u j, find (Mongo.is_user uid) (Mongo.users w) = Some u
       /\ Mongo.users w' = Mongo.upsert_user (Mongo.with_credits (Mongo.credits u - cost)%Z u) (Mongo.users w)
       /\ Mongo.jobs w' = Mongo.upsert_job j (Mongo.jobs w)
       /\ r = Ok (Mongo.R200_job j)).
Proof.
  unfold Mongo.post_jobs, Mongo.authMiddleware, Mongo.findUserById, Mongo.create_job,
    Mongo.save_user, Mongo.save_job.
  split_faults;
  try (left; repeat split; intros j' Hr; discriminate);
  destruct (find (Mongo.is_user uid) (Mongo.users w)) as [u|] eqn:Hu; monad;
  try (left; repeat split; intros j' Hr; discriminate);
  destruct (Mongo.credits u <? _)%Z; monad;
  try (left; repeat split; intros j' Hr; discriminate);
  split_faults;
  try (left; repeat split; intros j' Hr; discriminate);
  match goal with |- context [if Mongo.valid_job ?jj then _ else _] => destruct (Mongo.valid_job jj) end;
  split_faults;
  first [ right; left; exists u; repeat split; intros j' Hr; discriminate
        | right; right; eexists u, _; repeat split ].
Qed.

Lemma file_post_jobs_outcome (w : FileDb.world) (uid : string) (url : string) (fs : list bool) :
  let '(r, w') := run (FileDb.post_jobs uid url) w fs in
  (FileDb.users w' = FileDb.users w /\ FileDb.jobs w' = FileDb.jobs w
   /\ forall j, r <> Ok (FileDb.R200_job j))
  \/ (exists j, FileDb.jobs w' = (FileDb.jobs w ++ [j])%list /\ FileDb.users w' = FileDb.users w
       /\ forall j', r <> Ok (FileDb.R200_job j'))
  \/ (exists u j, find (FileDb.is_user uid) (FileDb.users w) = Some u
       /\ FileDb.jobs w' = (FileDb.jobs w ++ [j])%list
       /\ FileDb.users w'
          = match find_index (FileDb.is_user (FileDb.uid u)) (FileDb.users w) with
            | Some k => update_nth k (fun x => FileDb.with_credits (FileDb.credits x - 25)%Z x) (FileDb.users w)
            | None => FileDb.users w
            end
       /\ r = Ok (FileDb.R200_job j)).
Proof.
  unfold FileDb.post_jobs, FileDb.authMiddleware, FileDb.create_job, FileDb.readUsers,
    FileDb.readJobs, FileDb.writeJobs, FileDb.writeUsers.
  monad.
  repeat (match goal with
          | |- context [match ?fs with nil => _ | cons _ _ => _ end] => is_var fs; destruct fs as [|[] fs]
          | |- context [match ?e with Some _ => _ | None => _ end] => destruct e eqn:?
          | |- context [if ?b then _ else _] => destruct b eqn:?
          end; monad).
  all: cbn [FileDb.users FileDb.jobs FileDb.set_jobs FileDb.set_users].
  all: cbn [FileDb.users FileDb.jobs FileDb.set_jobs FileDb.set_users] in *.
  all: try (left; split; [reflexivity|split;[reflexivity|intros j' Hr; discriminate]]).
  all: try (right; left; eexists; split; [reflexivity|split;[reflexivity|intros j' Hr; discriminate]]).
  all: try (right; right; eexists _, _; split; [reflexivity|split; [reflexivity|split; [|reflexivity]]];
            match goal with H : find_index _ _ = _ |- _ => rewrite H; reflexivity end).
Qed.

(** C2.  Submission is not atomic.  The Mongo version saves the debited
    user first and the job afterwards: a job save that fails (schema
    validation or the database) leaves the debit in place with no job.
    The JSON-file version writes the job first and the debited users
    afterwards: a failure there leaves the job without a debit.  Only a
    200 answer guarantees that both writes happened. *)
Theorem C2_submit_outcomes (mw : Mongo.world) (uid : string) (rq : Mongo.job_request)
    (oid : string) (mfs : list bool) (fw : FileDb.world) (fuid url : string) (ffs : list bool) :
  (let '(r, w') := run (Mongo.post_jobs uid rq oid) mw mfs in
   let cost := (Mongo.PRICES (Mongo.rq_segmentDuration rq) * Mongo.rq_segmentCount rq)%Z in
   (Mongo.users w' = Mongo.users mw /\ Mongo.jobs w' = Mongo.jobs mw
    /\ forall j, r <> Ok (Mongo.R200_job j))
   \/ (exists u, find (Mongo.is_user uid) (Mongo.users mw) = Some u
        /\ Mongo.users w' = Mongo.upsert_user (Mongo.with_credits (Mongo.credits u - cost)%Z u) (Mongo.users mw)
        /\ Mongo.jobs w' = Mongo.jobs mw
        /\ forall j, r <> Ok (Mongo.R200_job j))
   \/ (exists u j, find (Mongo.is_user uid) (Mongo.users mw) = Some u
        /\ Mongo.users w' = Mongo.upsert_user (Mongo.with_credits (Mongo.credits u - cost)%Z u) (Mongo.users mw)
        /\ Mongo.jobs w' = Mongo.upsert_job j (Mongo.jobs mw)
        /\ r = Ok (Mongo.R200_job j)))
  /\
  (let '(r, w') := run (FileDb.post_jobs fuid url) fw ffs in
   (FileDb.users w' = FileDb.users fw /\ FileDb.jobs w' = FileDb.jobs fw
    /\ forall j, r <> Ok (FileDb.R200_job j))
   \/ (exists j, FileDb.jobs w' = (FileDb.jobs fw ++ [j])%list /\ FileDb.users w' = FileDb.users fw
        /\ forall j', r <> Ok (FileDb.R200_job j'))
   \/ (exists u j, find (FileDb.is_user fuid) (FileDb.users fw) = Some u
        /\ FileDb.jobs w' = (FileDb.jobs fw ++ [j])%list
        /\ FileDb.users w'
           = match find_index (FileDb.is_user (FileDb.uid u)) (FileDb.users fw) with
             | Some k => update_nth k (fun x => FileDb.with_credits (FileDb.credits x - 25)%Z x) (FileDb.users fw)
             | None => FileDb.users fw
             end
        /\ r = Ok (FileDb.R200_job j))).
Proof.
  split; [apply mongo_post_jobs_outcome|apply file_post_jobs_outcome].
Qed.

(** C2, counterexample.  Mongo: [u1] (100 credits) asks for 3 segments of
    45 s; the debit of 15 is saved, the job fails validation, the answer is
    500 and no job exists.  JSON file: the second read of [users.json]
    rejects; the job is persisted, the balance stays 100, the answer is 500. *)
Lemma C2_counterexample :
  (let '(r, w') := run (Mongo.post_jobs "u1" rq_bad_duration "j1") mw_fresh [] in
   r = Ok Mongo.R500 /\ Mongo.users w' = [Mongo.mkUser "u1" "a@x.org" 85] /\ Mongo.jobs w' = [])
  /\
  (let '(r, w') := run (FileDb.post_jobs "user_1" "https://youtu.be/v") fw_fresh
                     [false; false; false; false; true] in
   r = Ok FileDb.R500 /\ FileDb.users w' = [FileDb.mkUser "user_1" "a@x.org" 100]
   /\ length (FileDb.jobs w') = 1%nat).
Proof. vm_compute. repeat split. Qed.

(** * Retention sweeper *)

Lemma delete_segment_objects_noop (segs : list Mongo.segment) (w : Mongo.world) (fs : list bool) :
  Mongo.delete_segment_objects segs (w, fs) = (Ok tt, (w, fs)).
Proof.
  revert w fs. induction segs as [|s segs IH]; intros w fs; simpl; [reflexivity|].
  unfold Mongo.delete_segment_object.
  destruct (Mongo.truthy (Mongo.seg_storageKey s)); monad; apply IH.
Qed.

Lemma sweep_jobs_nofault (old : list Mongo.job) (w : Mongo.world) :
  let '(r, (w', fs')) := Mongo.sweep_jobs old (w, []) in
  r = Ok tt /\ fs' = []
  /\ Mongo.jobs w' = filter (fun x => negb (existsb (fun j => Mongo.is_job (Mongo.id j) x) old)) (Mongo.jobs w)
  /\ Mongo.storage w' = Mongo.storage w.
Proof.
  revert w. induction old as [|j old IH]; intros w; simpl.
  - split; [reflexivity|split; [reflexivity|split]]; [|reflexivity].
    induction (Mongo.jobs w); simpl; congruence.
  - unfold Mongo.deleteOne. monad. rewrite delete_segment_objects_noop. monad.
    match goal with |- context [Mongo.sweep_jobs old (?w0, ?fs0)] =>
      pose proof (IH w0) as H; destruct (Mongo.sweep_jobs old (w0, fs0)) as [r [w' fs']] end.
    destruct H as [-> [-> [Hj Hs]]]. split; [reflexivity|split; [reflexivity|split]].
    + rewrite Hj. cbn [Mongo.jobs Mongo.set_jobs].
      clear. induction (Mongo.jobs w) as [|x xs IHx]; [reflexivity|].
      simpl. destruct (Mongo.is_job (Mongo.id j) x); simpl; [exact IHx|].
      destruct (existsb _ old); simpl; [exact IHx|now rewrite IHx].
    + exact Hs.
Qed.

Lemma nodup_id_inj (l : list Mongo.job) (x y : Mongo.job) :
  NoDup (map Mongo.id l) -> In x l -> In y l -> Mongo.id x = Mongo.id y -> x = y.
Proof.
  induction l as [|a l IH]; simpl; [tauto|].
  intros Hnd Hx Hy Hid. inversion Hnd as [|? ? Hnin Hnd']; subst.
  destruct Hx as [<-|Hx], Hy as [<-|Hy]; auto.
  - exfalso. apply Hnin. rewrite Hid. now apply in_map.
  - exfalso. apply Hnin. rewrite <- Hid. now apply in_map.
Qed.

(** C7.  The sweeper selects the completed jobs whose [createdAt] is
    strictly before [now - 7 days]; with no failures (and distinct ids) it
    deletes exactly those records.  It leaves the bucket as it is: every
    clip delete throws a ReferenceError ([DeleteObjectCommand] is not
    imported in this version), which the inner [catch] logs, so deleting a
    job's objects neither rejects nor touches the world, and the record is
    still deleted. *)
Theorem C7_sweep (w : Mongo.world) (Hnd : NoDup (map Mongo.id (Mongo.jobs w))) :
  let w' := snd (run Mongo.cleanup_task w []) in
  Mongo.jobs w' = filter (fun j => negb (Mongo.selected (Mongo.clock w) j)) (Mongo.jobs w)
  /\ Mongo.storage w' = Mongo.storage w
  /\ (forall segs w0 fs, Mongo.delete_segment_objects segs (w0, fs) = (Ok tt, (w0, fs))).
Proof.
  split; [|split].
  - unfold Mongo.cleanup_task. monad.
    pose proof (sweep_jobs_nofault (filter (Mongo.selected (Mongo.clock w)) (Mongo.jobs w)) w) as H.
    destruct (Mongo.sweep_jobs _ (w, [])) as [r [w' fs']].
    destruct H as [-> [_ [Hjobs _]]]. monad. rewrite Hjobs.
    apply filter_ext_in. intros x Hx.
    destruct (Mongo.selected (Mongo.clock w) x) eqn:Hsel.
    + apply negb_false_iff, existsb_exists. exists x. split.
      * now apply filter_In.
      * apply String.eqb_refl.
    + apply negb_true_iff, not_true_iff_false. intros Hex.
      apply existsb_exists in Hex as [j [Hj Heq]]. apply filter_In in Hj as [Hj Hsj].
      apply String.eqb_eq in Heq.
      rewrite (nodup_id_inj _ x j Hnd Hx Hj Heq) in Hsel. congruence.
  - unfold Mongo.cleanup_task. monad.
    pose proof (sweep_jobs_nofault (filter (Mongo.selected (Mongo.clock w)) (Mongo.jobs w)) w) as H.
    destruct (Mongo.sweep_jobs _ (w, [])) as [r [w' fs']].
    destruct H as [-> [_ [_ Hs]]]. monad. exact Hs.
  - apply delete_segment_objects_noop.
Qed.

Lemma C7_sweep_witness :
  let w' := snd (run Mongo.cleanup_task mw_sweep []) in
  Mongo.jobs w' = filter (fun j => negb (Mongo.selected (Mongo.clock mw_sweep) j)) (Mongo.jobs mw_sweep).
Proof.
  refine (proj1 (C7_sweep mw_sweep _)).
  repeat constructor; cbn; intuition discriminate.
Defined.

(** C7, counterexample: [edge], aged exactly 7 days, is kept; [old] is
    deleted, but its clip and its thumbnail both stay in the bucket. *)
Lemma C7_counterexample :
  let w' := snd (run Mongo.cleanup_task mw_sweep []) in
  map Mongo.id (Mongo.jobs w') = ["edge"]
  /\ Mongo.storage w' = ["shorts/old/segment_1.mp4"; "shorts/old/thumb_1.jpg";
                         "shorts/edge/segment_1.mp4"; "shorts/edge/thumb_1.jpg"].
Proof. vm_compute. split; reflexivity. Qed.

(** * Temporary directories *)

(** C6, the failing run: the download rejects after the temporary
    directory was made.  The Mongo [catch] block never removes it; the
    JSON-file version removes it in its [finally] block. *)
Lemma C6_counterexample :
  Mongo.tmpdirs (snd (run (Mongo.processJobInBackground "j1") mw_one_job
                        [false; false; false; true])) = [("j1", 1000%Z)]
  /\ map Mongo.status (Mongo.jobs (snd (run (Mongo.processJobInBackground "j1") mw_one_job
                                         [false; false; false; true]))) = [failed]
  /\ FileDb.tmpdirs (snd (run (FileDb.processJobInBackground fj_pending) fw_pending
                            [false; false; false; false; true])) = []
  /\ map FileDb.status (FileDb.jobs (snd (run (FileDb.processJobInBackground fj_pending) fw_pending
                                           [false; false; false; false; true]))) = [failed].
Proof. vm_compute. repeat split. Qed.

(** * Credit safety *)

Section Safety.
Context {W : Type} (Inv : W -> Prop).

Lemma safe_ret {A} (a : A) (Q : A -> Prop) : Q a -> safe Inv (ret a) Q.
Proof. intros Ha w fs Hw. split; assumption. Qed.

Lemma safe_bind {A B} (m : ST W A) (k : A -> ST W B) (Q : A -> Prop) (R : B -> Prop) :
  safe Inv m Q -> (forall a, Q a -> safe Inv (k a) R) -> safe Inv (bind m k) R.
Proof.
  intros Hm Hk w fs Hw. unfold bind. specialize (Hm w fs Hw).
  destruct (m (w, fs)) as [[a|] [w1 fs1]]; destruct Hm as [Hw1 Ha]; [|split; auto].
  exact (Hk a Ha w1 fs1 Hw1).
Qed.

Lemma safe_io : safe Inv io (fun _ => True).
Proof. intros w [|[] fs] Hw; split; auto. Qed.

Lemma safe_get : safe Inv get Inv.
Proof. intros w fs Hw. split; assumption. Qed.

Lemma safe_throw {A} (Q : A -> Prop) : safe Inv throw Q.
Proof. intros w fs Hw. split; auto. Qed.

Lemma safe_modify (f : W -> W) : (forall w, Inv w -> Inv (f w)) -> safe Inv (modify f) (fun _ => True).
Proof. intros Hf w fs Hw. split; auto. Qed.

Lemma safe_attempt {A} (m : ST W A) (Q : A -> Prop) :
  safe Inv m Q -> safe Inv (attempt m) (fun r => match r with Ok a => Q a | Err => True end).
Proof.
  intros Hm w fs Hw. unfold attempt. specialize (Hm w fs Hw).
  destruct (m (w, fs)) as [r [w1 fs1]]. exact Hm.
Qed.

Lemma safe_try_catch {A} (m h : ST W A) (Q : A -> Prop) :
  safe Inv m Q -> safe Inv h Q -> safe Inv (try_catch m h) Q.
Proof.
  intros Hm Hh. unfold try_catch. eapply safe_bind; [apply safe_attempt, Hm|].
  intros [a|] Ha; [apply safe_ret, Ha|exact Hh].
Qed.

Lemma safe_weaken {A} (m : ST W A) (Q Q' : A -> Prop) :
  safe Inv m Q -> (forall a, Q a -> Q' a) -> safe Inv m Q'.
Proof.
  intros Hm HQ w fs Hw. specialize (Hm w fs Hw).
  destruct (m (w, fs)) as [[a|] [w1 fs1]]; destruct Hm; split; auto.
Qed.

Lemma safe_run {A} (m : ST W A) (Q : A -> Prop) (w : W) (fs : list bool) :
  safe Inv m Q -> Inv w -> Inv (snd (run m w fs)).
Proof.
  intros Hm Hw. specialize (Hm w fs Hw). unfold run.
  destruct (m (w, fs)) as [r [w1 fs1]]. apply Hm.
Qed.

End Safety.

Ltac sstep inv :=
  match goal with
  | |- safe _ (bind io _) _ => eapply safe_bind; [apply safe_io | intros _ _]
  | |- safe _ (bind get _) _ => eapply safe_bind; [apply safe_get | intros ?w ?Hw]
  | |- safe _ (bind (modify _) _) _ =>
      eapply safe_bind; [apply safe_modify; let w := fresh "w" in let H := fresh "Hw" in intros w H; inv | intros _ _]
  | |- safe _ (modify _) _ => apply safe_modify; let w := fresh "w" in let H := fresh "Hw" in intros w H; inv
  | |- safe _ (ret _) _ => apply safe_ret; try exact I
  | |- safe _ io _ => apply safe_io
  | |- safe _ throw _ => apply safe_throw
  | |- safe _ (match ?x with pair _ _ => _ end) _ => destruct x
  end.

Lemma Forall_update_nth {A} (P : A -> Prop) (f : A -> A) (k : nat) (l : list A) :
  Forall P l -> (forall y, In y l -> P y -> P (f y)) -> Forall P (update_nth k f l).
Proof.
  revert k. induction l as [|x l IH]; intros [|k] Hl Hf; simpl; auto;
  inversion Hl; subst; constructor; auto.
  - apply Hf; simpl; auto.
  - apply IH; auto. intros y Hy. apply Hf. simpl; auto.
Qed.

Lemma Forall_upsert {A} (P : A -> Prop) (q : A -> bool) (x : A) (l : list A) :
  Forall P l -> P x ->
  Forall P (match find_index q l with Some k => update_nth k (fun _ => x) l | None => l ++ [x] end).
Proof.
  intros Hl Hx. destruct (find_index q l).
  - apply Forall_update_nth; auto.
  - apply Forall_app; auto.
Qed.

Lemma update_first_Forall {A} (P : A -> Prop) (p : A -> bool) (f : A -> A) (l : list A) (u : A) (k : nat) :
  find p l = Some u -> find_index p l = Some k -> Forall P l -> P (f u) -> Forall P (update_nth k f l).
Proof.
  revert k. induction l as [|x l IH]; intros k Hf Hk Hl Hu; simpl in *; [discriminate|].
  inversion Hl; subst. destruct (p x).
  - injection Hf as ->. injection Hk as <-. simpl. constructor; auto.
  - destruct (find_index p l) as [k'|]; simpl in Hk; [|discriminate].
    injection Hk as <-. simpl. constructor; eauto.
Qed.

(** ** Mongo *)

Ltac mongo_inv_tac :=
  unfold mongo_inv in *;
  cbn [Mongo.users Mongo.jobs Mongo.set_storage Mongo.set_tmpdirs Mongo.set_jobs Mongo.set_users] in *;
  tauto.

Lemma mongo_findJobById_safe (jid : string) :
  safe mongo_inv (Mongo.findJobById jid)
    (fun o => forall j, o = Some j -> (0 <= Mongo.creditsUsed j)%Z).
Proof.
  unfold Mongo.findJobById. sstep mongo_inv_tac. sstep mongo_inv_tac.
  apply safe_ret. intros j Hj. apply find_some in Hj as [Hj _].
  destruct Hw as [_ Hjobs]. rewrite Forall_forall in Hjobs. auto.
Qed.

Lemma mongo_findUserById_safe (uid : string) :
  safe mongo_inv (Mongo.findUserById uid)
    (fun o => forall u, o = Some u -> (0 <= Mongo.credits u)%Z).
Proof.
  unfold Mongo.findUserById. sstep mongo_inv_tac. sstep mongo_inv_tac.
  apply safe_ret. intros u Hu. apply find_some in Hu as [Hu _].
  destruct Hw as [Husers _]. rewrite Forall_forall in Husers. auto.
Qed.

Lemma mongo_save_job_safe (j : Mongo.job) :
  (Mongo.valid_job j = true -> (0 <= Mongo.creditsUsed j)%Z) ->
  safe mongo_inv (Mongo.save_job j) (fun _ => True).
Proof.
  intros Hj. unfold Mongo.save_job. destruct (Mongo.valid_job j); [|sstep mongo_inv_tac].
  sstep mongo_inv_tac. apply safe_modify. intros w [Hu Hjs]. split; [exact Hu|].
  apply Forall_upsert; auto.
Qed.

Lemma mongo_save_user_safe (u : Mongo.user) :
  (0 <= Mongo.credits u)%Z -> safe mongo_inv (Mongo.save_user u) (fun _ => True).
Proof.
  intros Hu. unfold Mongo.save_user. sstep mongo_inv_tac.
  apply safe_modify. intros w [Hus Hjs]. split; [|exact Hjs]. apply Forall_upsert; auto.
Qed.

Lemma mongo_authMiddleware_safe (uid : string) :
  safe mongo_inv (Mongo.authMiddleware uid) (fun _ => True).
Proof.
  unfold Mongo.authMiddleware.
  eapply safe_bind; [apply safe_attempt, mongo_findUserById_safe|].
  intros [r|] _; sstep mongo_inv_tac.
Qed.

Lemma PRICES_pos (d : Z) : (0 < Mongo.PRICES d)%Z.
Proof. unfold Mongo.PRICES. repeat destruct (Z.eqb _ _); lia. Qed.

Lemma mongo_post_jobs_safe (uid : string) (rq : Mongo.job_request) (oid : string) :
  safe mongo_inv (Mongo.post_jobs uid rq oid) (fun _ => True).
Proof.
  unfold Mongo.post_jobs.
  eapply safe_bind; [apply mongo_authMiddleware_safe|].
  intros [u|] _; [|sstep mongo_inv_tac].
  apply safe_try_catch; [|sstep mongo_inv_tac].
  unfold Mongo.create_job. destruct (Mongo.credits u <? _)%Z eqn:Hc; [sstep mongo_inv_tac|].
  apply Z.ltb_ge in Hc.
  eapply safe_bind; [apply mongo_save_user_safe; cbn; lia|intros _ _].
  sstep mongo_inv_tac.
  eapply safe_bind; [apply mongo_save_job_safe|intros _ _; sstep mongo_inv_tac].
  unfold Mongo.valid_job. cbn [Mongo.segmentCount Mongo.creditsUsed Mongo.segmentDuration Mongo.youtubeUrl].
  intros Hv. apply andb_prop in Hv as [Hv Hmax]. apply andb_prop in Hv as [_ Hmin].
  apply Z.leb_le in Hmin. pose proof (PRICES_pos (Mongo.rq_segmentDuration rq)). nia.
Qed.

(** The segment loop only writes to the bucket, and returns the job with
    new segments. *)
Section SegmentLoop.
Variable Inv : Mongo.world -> Prop.
Hypothesis HI : forall ks w, Inv w -> Inv (Mongo.set_storage ks w).

Lemma mongo_uploadToStorage_safe (key : string) :
  safe Inv (Mongo.uploadToStorage key) (fun _ => True).
Proof. unfold Mongo.uploadToStorage. repeat sstep ltac:(apply HI; assumption). Qed.

Lemma mongo_getVideoDuration_safe : safe Inv Mongo.getVideoDuration (fun _ => True).
Proof. unfold Mongo.getVideoDuration. repeat sstep idtac. Qed.

Lemma mongo_processSegment_safe jobId index sd total dur subs text :
  safe Inv (Mongo.processSegment jobId index sd total dur subs text) (fun _ => True).
Proof.
  unfold Mongo.processSegment. repeat sstep idtac.
  eapply safe_bind; [apply mongo_uploadToStorage_safe|intros _ _].
  eapply safe_bind; [apply mongo_uploadToStorage_safe|intros _ _].
  sstep idtac.
Qed.

Lemma mongo_segment_loop_safe (job : Mongo.job) (i n : nat) :
  safe Inv (Mongo.segment_loop job i n)
    (fun j' => j' = Mongo.with_segments (Mongo.segments j') job).
Proof.
  revert job i. induction n as [|n IH]; intros job i; simpl.
  { sstep idtac. destruct job; reflexivity. }
  eapply safe_bind; [apply mongo_getVideoDuration_safe|intros d _].
  eapply safe_bind; [apply mongo_processSegment_safe|intros s _].
  eapply safe_weaken; [apply IH|]. intros a Ha. rewrite Ha. reflexivity.
Qed.

End SegmentLoop.

Lemma mongo_inv_set_storage (ks : list string) (w : Mongo.world) :
  mongo_inv w -> mongo_inv (Mongo.set_storage ks w).
Proof. exact (fun H => H). Qed.

Lemma mongo_pipeline_safe (jid : string) :
  safe mongo_inv (Mongo.pipeline jid) (fun _ => True).
Proof.
  unfold Mongo.pipeline.
  eapply safe_bind; [apply mongo_findJobById_safe|].
  intros [job0|] Hj0; [|sstep mongo_inv_tac].
  specialize (Hj0 job0 eq_refl).
  eapply safe_bind; [apply mongo_save_job_safe; intros _; exact Hj0|intros _ _].
  repeat sstep mongo_inv_tac.
  eapply safe_bind; [apply mongo_save_job_safe; intros _; exact Hj0|intros _ _].
  eapply safe_bind with (Q := fun j3 => Mongo.creditsUsed j3 = Mongo.creditsUsed job0).
  { destruct (Mongo.subtitlesEnabled _); repeat sstep mongo_inv_tac; reflexivity. }
  intros job3 H3.
  eapply safe_bind; [apply mongo_segment_loop_safe, mongo_inv_set_storage|intros job4 H4].
  repeat sstep mongo_inv_tac.
  eapply safe_bind; [apply mongo_save_job_safe; intros _; rewrite H4; cbn; rewrite H3; exact Hj0|intros _ _].
  repeat sstep mongo_inv_tac.
Qed.

Lemma mongo_failure_handler_safe (jid : string) :
  safe mongo_inv (Mongo.failure_handler jid) (fun _ => True).
Proof.
  unfold Mongo.failure_handler.
  eapply safe_bind; [apply mongo_findJobById_safe|].
  intros [job|] Hj; [|sstep mongo_inv_tac].
  specialize (Hj job eq_refl).
  eapply safe_bind; [apply mongo_save_job_safe; intros _; exact Hj|intros _ _].
  eapply safe_bind; [apply mongo_findUserById_safe|].
  intros [u|] Hu; [|sstep mongo_inv_tac].
  specialize (Hu u eq_refl). apply mongo_save_user_safe. cbn. lia.
Qed.

Lemma mongo_processJobInBackground_safe (jid : string) :
  safe mongo_inv (Mongo.processJobInBackground jid) (fun _ => True).
Proof.
  apply safe_try_catch; [apply mongo_pipeline_safe|apply mongo_failure_handler_safe].
Qed.

Lemma mongo_delete_segment_objects_safe (segs : list Mongo.segment) :
  safe mongo_inv (Mongo.delete_segment_objects segs) (fun _ => True).
Proof.
  induction segs as [|s segs IH]; simpl; [sstep mongo_inv_tac|].
  eapply safe_bind with (Q := fun _ => True); [|intros _ _; exact IH].
  unfold Mongo.delete_segment_object. destruct (Mongo.truthy _); [|sstep mongo_inv_tac].
  eapply safe_bind; [apply (safe_attempt _ _ (fun _ => True)); repeat sstep mongo_inv_tac
                    |intros _ _; sstep mongo_inv_tac].
Qed.

Lemma mongo_cleanup_task_safe : safe mongo_inv Mongo.cleanup_task (fun _ => True).
Proof.
  unfold Mongo.cleanup_task. apply safe_try_catch; [|sstep mongo_inv_tac].
  sstep mongo_inv_tac.
  eapply safe_bind with (Q := fun _ => True); [repeat sstep mongo_inv_tac|intros old _].
  induction old as [|j old IH]; simpl; [sstep mongo_inv_tac|].
  eapply safe_bind; [apply mongo_delete_segment_objects_safe|intros _ _].
  eapply safe_bind; [|intros _ _; exact IH].
  unfold Mongo.deleteOne. sstep mongo_inv_tac. apply safe_modify.
  intros w' [Hu Hj]. split; [exact Hu|]. cbn. rewrite Forall_forall in *.
  intros x Hx. apply filter_In in Hx as [Hx _]. auto.
Qed.

(** ** JSON file *)

Ltac file_inv_tac :=
  unfold file_inv in *;
  cbn [FileDb.users FileDb.set_storage FileDb.set_tmpdirs FileDb.set_jobs] in *;
  assumption.

Lemma file_readJobs_safe : safe file_inv FileDb.readJobs (fun _ => True).
Proof. unfold FileDb.readJobs. repeat sstep file_inv_tac. Qed.

Lemma file_writeJobs_safe (js : list FileDb.job) : safe file_inv (FileDb.writeJobs js) (fun _ => True).
Proof. unfold FileDb.writeJobs, FileDb.set_jobs. repeat sstep file_inv_tac. Qed.

(** The shorts loop only writes to the bucket. *)
Section ShortsLoop.
Variable Inv : FileDb.world -> Prop.
Hypothesis HI : forall ks w, Inv w -> Inv (FileDb.set_storage ks w).

Lemma file_uploadToStorage_safe (key : string) : safe Inv (FileDb.uploadToStorage key) (fun _ => True).
Proof. unfold FileDb.uploadToStorage. repeat sstep ltac:(apply HI; assumption). Qed.

Lemma file_getVideoDuration_safe : safe Inv FileDb.getVideoDuration (fun _ => True).
Proof. unfold FileDb.getVideoDuration. repeat sstep idtac. Qed.

Lemma file_make_shorts_safe (j : FileDb.job) (d : Q) (i n : nat) (segs : list FileDb.segment) :
  safe Inv (FileDb.make_shorts j d i n segs) (fun _ => True).
Proof.
  revert i segs. induction n as [|n IH]; intros i segs; simpl; [sstep idtac|].
  repeat sstep idtac.
  eapply safe_bind; [apply file_uploadToStorage_safe|intros _ _].
  eapply safe_bind; [apply file_uploadToStorage_safe|intros _ _].
  sstep idtac. apply IH.
Qed.

End ShortsLoop.

Lemma file_inv_set_storage (ks : list string) (w : FileDb.world) :
  file_inv w -> file_inv (FileDb.set_storage ks w).
Proof. exact (fun H => H). Qed.

Lemma file_update_jobs_safe (j : FileDb.job) (f : FileDb.job -> FileDb.job) (js : list FileDb.job) :
  safe file_inv (match find_index (FileDb.is_job (FileDb.id j)) js with
                 | Some k => FileDb.writeJobs (update_nth k f js)
                 | None => ret tt
                 end) (fun _ => True).
Proof. destruct (find_index _ _); [apply file_writeJobs_safe|sstep file_inv_tac]. Qed.

Lemma file_processJobInBackground_safe (j : FileDb.job) :
  safe file_inv (FileDb.processJobInBackground j) (fun _ => True).
Proof.
  assert (Hmp : safe file_inv (FileDb.mark_processing j) (fun _ => True)).
  { unfold FileDb.mark_processing.
    eapply safe_bind; [apply file_readJobs_safe|intros js _]. apply file_update_jobs_safe. }
  assert (Hmf : safe file_inv (FileDb.mark_failed j) (fun _ => True)).
  { unfold FileDb.mark_failed.
    eapply safe_bind; [apply (safe_attempt _ _ (fun _ => True))|intros _ _; sstep file_inv_tac].
    eapply safe_bind; [apply file_readJobs_safe|intros js _]. apply file_update_jobs_safe. }
  assert (Hcl : forall d, safe file_inv (FileDb.cleanup d) (fun _ => True)).
  { intros [d|]; unfold FileDb.cleanup; [|sstep file_inv_tac].
    eapply safe_bind; [apply (safe_attempt _ _ (fun _ => True)); repeat sstep file_inv_tac
                      |intros _ _; sstep file_inv_tac]. }
  unfold FileDb.processJobInBackground.
  eapply safe_bind; [apply (safe_attempt _ _ (fun _ => True)), Hmp|intros r _].
  destruct r as [_|].
  - sstep file_inv_tac.
    eapply safe_bind; [apply (safe_attempt _ _ (fun _ => True))|intros r2 _].
    + unfold FileDb.process_in_tempdir. repeat sstep file_inv_tac.
      eapply safe_bind; [apply file_getVideoDuration_safe|intros d _].
      eapply safe_bind; [apply file_make_shorts_safe, file_inv_set_storage|intros segs _].
      eapply safe_bind; [apply file_readJobs_safe|intros js _].
      sstep file_inv_tac. apply file_update_jobs_safe.
    + destruct r2 as [_|]; [apply Hcl|].
      eapply safe_bind; [apply Hmf|intros _ _; apply Hcl].
  - eapply safe_bind; [apply Hmf|intros _ _; apply Hcl].
Qed.

Lemma file_post_jobs_safe (w : FileDb.world) (uid url : string) (fs : list bool) :
  file_inv w -> file_inv (snd (run (FileDb.post_jobs uid url) w fs)).
Proof.
  intros Hw.
  unfold FileDb.post_jobs, FileDb.authMiddleware, FileDb.create_job, FileDb.readUsers,
    FileDb.readJobs, FileDb.writeJobs, FileDb.writeUsers.
  monad.
  repeat (match goal with
          | |- context [match ?fs with nil => _ | cons _ _ => _ end] => is_var fs; destruct fs as [|[] fs]
          | |- context [match ?e with Some _ => _ | None => _ end] => destruct e eqn:?
          | |- context [if ?b then _ else _] => destruct b eqn:?
          end; monad).
  all: unfold file_inv in *; cbn [FileDb.users FileDb.jobs FileDb.set_jobs FileDb.set_users] in *.
  all: try assumption.
  all: match goal with
       | Hu : find (FileDb.is_user _) _ = Some ?u, Hc : (FileDb.credits ?u <? 25)%Z = false,
         Hk : find_index _ _ = Some _ |- _ =>
           apply find_some in Hu as Hu'; destruct Hu' as [_ Huid];
           unfold FileDb.is_user in Huid; apply String.eqb_eq in Huid; rewrite Huid in Hk;
           apply Z.ltb_ge in Hc;
           eapply (update_first_Forall _ _ _ _ _ _ Hu Hk Hw); cbn; lia
       end.
Qed.

Lemma mongo_trace_inv (es : list (mongo_event * list bool)) (w : Mongo.world) :
  mongo_inv w -> mongo_inv (mongo_trace es w).
Proof.
  revert w. induction es as [|[e fs] es IH]; intros w Hw; simpl; [exact Hw|].
  apply IH. apply (safe_run _ _ (fun _ => True)); [|exact Hw].
  destruct e as [u rq oid|jid|]; simpl.
  - eapply safe_bind; [apply mongo_post_jobs_safe|intros _ _; apply safe_ret; exact I].
  - apply mongo_processJobInBackground_safe.
  - apply mongo_cleanup_task_safe.
Qed.

Lemma file_trace_inv (es : list (file_event * list bool)) (w : FileDb.world) :
  file_inv w -> file_inv (file_trace es w).
Proof.
  revert w. induction es as [|[e fs] es IH]; intros w Hw; simpl; [exact Hw|].
  apply IH. destruct e as [u url|j]; simpl.
  - pose proof (file_post_jobs_safe w u url fs Hw) as H. revert H.
    unfold run, bind, ret.
    destruct (FileDb.post_jobs u url (w, fs)) as [[r|] [w1 fs1]]; exact (fun H => H).
  - eapply safe_run; [apply file_processJobInBackground_safe|exact Hw].
Qed.

(** C9.  In every serial run of submissions and background jobs (and
    Mongo sweeps) from a world with non-negative balances (and, for Mongo,
    non-negative reserved credits), every balance stays non-negative; a
    submission whose balance is below its total cost gets 402 and changes
    nothing. *)
Theorem C9_credits_nonneg (mes : list (mongo_event * list bool)) (mw : Mongo.world)
    (fes : list (file_event * list bool)) (fw : FileDb.world)
    (Hm : mongo_inv mw) (Hf : file_inv fw) :
  Forall (fun u => (0 <= Mongo.credits u)%Z) (Mongo.users (mongo_trace mes mw))
  /\ Forall (fun u => (0 <= FileDb.credits u)%Z) (FileDb.users (file_trace fes fw))
  /\ (forall w uid rq oid fs u,
        find (Mongo.is_user uid) (Mongo.users w) = Some u ->
        (Mongo.credits u < Mongo.PRICES (Mongo.rq_segmentDuration rq) * Mongo.rq_segmentCount rq)%Z ->
        run (Mongo.post_jobs uid rq oid) w (false :: fs) = (Ok Mongo.R402, w))
  /\ (forall w uid url fs u,
        find (FileDb.is_user uid) (FileDb.users w) = Some u ->
        (FileDb.credits u < 25)%Z ->
        run (FileDb.post_jobs uid url) w (false :: fs) = (Ok FileDb.R402, w)).
Proof.
  split; [apply (mongo_trace_inv mes mw Hm)|].
  split; [apply (file_trace_inv fes fw Hf)|].
  split.
  - intros w uid rq oid fs u Hu Hc.
    unfold Mongo.post_jobs, Mongo.authMiddleware, Mongo.findUserById, Mongo.create_job.
    monad. rewrite Hu. monad. apply Z.ltb_lt in Hc. rewrite Hc. reflexivity.
  - intros w uid url fs u Hu Hc.
    unfold FileDb.post_jobs, FileDb.authMiddleware, FileDb.readUsers, FileDb.create_job.
    monad. rewrite Hu. monad. apply Z.ltb_lt in Hc. rewrite Hc. reflexivity.
Qed.

Lemma C9_credits_nonneg_witness :
  Forall (fun u => (0 <= Mongo.credits u)%Z) (Mongo.users (mongo_trace mes_demo mw_fresh))
  /\ Forall (fun u => (0 <= FileDb.credits u)%Z) (FileDb.users (file_trace fes_demo fw_fresh)).
Proof.
  assert (Hm : mongo_inv mw_fresh) by (split; repeat constructor; cbn; lia).
  assert (Hf : file_inv fw_fresh) by (repeat constructor; cbn; lia).
  destruct (C9_credits_nonneg mes_demo mw_fresh fes_demo fw_fresh Hm Hf) as [H1 [H2 _]].
  exact (conj H1 H2).
Defined.

(** * Status sequences of a processing run *)

Lemma mongo_segment_loop_frame (job : Mongo.job) (i n : nat) (w : Mongo.world) (fs : list bool) :
  let '(r, (w', _)) := Mongo.segment_loop job i n (w, fs) in
  (Mongo.jobs w' = Mongo.jobs w /\ Mongo.history w' = Mongo.history w)
  /\ match r with Ok j' => j' = Mongo.with_segments (Mongo.segments j') job | Err => True end.
Proof.
  exact (mongo_segment_loop_safe
           (fun w' => Mongo.jobs w' = Mongo.jobs w /\ Mongo.history w' = Mongo.history w)
           (fun ks w' H => H) job i n w fs (conj eq_refl eq_refl)).
Qed.

Lemma mongo_find_upsert_id (jid : string) (j : Mongo.job) (js : list Mongo.job) :
  Mongo.id j = jid -> find (Mongo.is_job jid) (Mongo.upsert_job j js) = Some j.
Proof. intros <-. apply mongo_find_upsert_job. Qed.

Lemma mongo_valid_with_status (s : job_status) (j : Mongo.job) :
  Mongo.valid_job (Mongo.with_status s j) = Mongo.valid_job j.
Proof. reflexivity. Qed.

Lemma mongo_status_of_upsert (jid : string) (j : Mongo.job) (js : list Mongo.job) :
  Mongo.id j = jid -> mongo_status_of jid (Mongo.upsert_job j js) = Some (Mongo.status j).
Proof. intros H. unfold mongo_status_of. rewrite mongo_find_upsert_id by exact H. reflexivity. Qed.

Lemma mongo_find_id (jid : string) (js : list Mongo.job) (j : Mongo.job) :
  find (Mongo.is_job jid) js = Some j -> Mongo.id j = jid.
Proof. intros H. apply find_some in H. apply String.eqb_eq, (proj2 H). Qed.

Lemma mongo_pipeline_status (w : Mongo.world) (jid : string) (fs : list bool) :
  let w' := snd (run (Mongo.pipeline jid) w fs) in
  exists Hs, Mongo.history w' = (Mongo.history w ++ Hs)%list
          /\ In (map (mongo_status_of jid) Hs) (map (map Some) mongo_pipeline_runs).
Proof.
  unfold Mongo.pipeline, Mongo.findJobById, Mongo.save_job.
  monad.
  repeat (match goal with
          | |- context [match ?fs with nil => _ | cons _ _ => _ end] => is_var fs; destruct fs as [|[] fs]
          | |- context [Mongo.segment_loop ?jb ?i ?n (?w0, ?fs0)] =>
              let H := fresh "Hloop" in
              pose proof (mongo_segment_loop_frame jb i n w0 fs0) as H;
              destruct (Mongo.segment_loop jb i n (w0, fs0)) as [[?j4|] [?w4 ?fs4]]
          | |- context [match find ?p ?l with Some _ => _ | None => _ end] =>
              let E := fresh "Efind" in destruct (find p l) eqn:E
          | |- context [if ?b then _ else _] => destruct b eqn:?
          end; monad).
  all: cbn [Mongo.history Mongo.jobs Mongo.set_jobs Mongo.set_tmpdirs Mongo.set_users
              Mongo.set_storage] in *.
  all: try (destruct Hloop as [[Hjl Hhl] Hr]; rewrite ?Hhl, ?Hjl;
            try (match type of Hr with True => clear Hr end)).
  all: first [ exists nil; split; [symmetry; apply app_nil_r | cbn; tauto]
             | eexists; split; [rewrite <- ?app_assoc; reflexivity | ] ].
  all: cbn [map app].
  all: repeat (rewrite mongo_status_of_upsert
                 by (cbn [Mongo.id Mongo.with_status Mongo.with_completed Mongo.with_segments];
                     try (rewrite Hr; cbn [Mongo.id Mongo.with_status Mongo.with_segments]);
                     eapply mongo_find_id; eassumption)).
  all: cbn; intuition congruence.
Qed.

Lemma mongo_failure_handler_status (w : Mongo.world) (jid : string) (fs : list bool) :
  let w' := snd (run (Mongo.failure_handler jid) w fs) in
  exists Hs, Mongo.history w' = (Mongo.history w ++ Hs)%list
          /\ In (map (mongo_status_of jid) Hs) (map (map Some) mongo_handler_runs).
Proof.
  unfold Mongo.failure_handler, Mongo.findJobById, Mongo.save_job, Mongo.findUserById,
    Mongo.save_user.
  monad.
  repeat (match goal with
          | |- context [match ?fs with nil => _ | cons _ _ => _ end] => is_var fs; destruct fs as [|[] fs]
          | |- context [match find ?p ?l with Some _ => _ | None => _ end] =>
              let E := fresh "Efind" in destruct (find p l) eqn:E
          | |- context [if ?b then _ else _] => destruct b eqn:?
          end; monad).
  all: cbn [Mongo.history Mongo.jobs Mongo.set_jobs Mongo.set_users] in *.
  all: first [ exists nil; split; [symmetry; apply app_nil_r | cbn; tauto]
             | eexists; split; [rewrite <- ?app_assoc; reflexivity | ] ].
  all: cbn [map app].
  all: rewrite mongo_status_of_upsert
         by (cbn [Mongo.id Mongo.with_status]; eapply mongo_find_id; eassumption).
  all: cbn; intuition congruence.
Qed.

Lemma mongo_status_runs (w : Mongo.world) (jid : string) (fs : list bool) :
  let w' := snd (run (Mongo.processJobInBackground jid) w fs) in
  exists Hs, Mongo.history w' = (Mongo.history w ++ Hs)%list
          /\ In (map (mongo_status_of jid) Hs) (map (map Some) mongo_runs).
Proof.
  pose proof (mongo_pipeline_status w jid fs) as Hp.
  unfold Mongo.processJobInBackground, try_catch, attempt, bind, ret, run in *; cbv zeta in *.
  destruct (Mongo.pipeline jid (w, fs)) as [[u|] [w1 fs1]]; cbn in Hp |- *.
  - destruct Hp as [Hs [Hh Hin]]. exists Hs. split; [exact Hh|].
    revert Hin. generalize (map (mongo_status_of jid) Hs). intros p Hin.
    cbn in Hin. destruct Hin as [<-|[<-|[<-|[<-|[]]]]]; cbn; tauto.
  - pose proof (mongo_failure_handler_status w1 jid fs1) as Hf.
    unfold run in Hf; cbv zeta in Hf.
    destruct (Mongo.failure_handler jid (w1, fs1)) as [r2 [w2 fs2]]; cbn in Hf |- *.
    destruct Hp as [Hs [Hh Hin]], Hf as [Hs2 [Hh2 Hin2]].
    exists (Hs ++ Hs2)%list. split; [rewrite Hh2, Hh, app_assoc; reflexivity|].
    rewrite map_app. revert Hin Hin2.
    generalize (map (mongo_status_of jid) Hs), (map (mongo_status_of jid) Hs2).
    intros p q Hin Hin2. cbn in Hin, Hin2.
    destruct Hin as [<-|[<-|[<-|[<-|[]]]]]; destruct Hin2 as [<-|[<-|[]]]; cbn; tauto.
Qed.

Lemma file_make_shorts_frame (j : FileDb.job) (d : Q) (i n : nat) (segs : list FileDb.segment)
    (w : FileDb.world) (fs : list bool) :
  let '(r, (w', _)) := FileDb.make_shorts j d i n segs (w, fs) in
  (FileDb.jobs w' = FileDb.jobs w /\ FileDb.history w' = FileDb.history w) /\
  match r with Ok _ => True | Err => True end.
Proof.
  exact (file_make_shorts_safe
           (fun w' => FileDb.jobs w' = FileDb.jobs w /\ FileDb.history w' = FileDb.history w)
           (fun ks w' H => H) j d i n segs w fs (conj eq_refl eq_refl)).
Qed.

Lemma file_status_of_update (jid : string) (k : nat) (f : FileDb.job -> FileDb.job)
    (js : list FileDb.job) :
  find_index (FileDb.is_job jid) js = Some k ->
  (forall x, FileDb.id (f x) = FileDb.id x) ->
  exists x, file_status_of jid (update_nth k f js) = Some (FileDb.status (f x)).
Proof.
  intros Hk Hf.
  assert (Hp : forall x, FileDb.is_job jid x = true -> FileDb.is_job jid (f x) = true)
    by (intros x; unfold FileDb.is_job; rewrite Hf; exact (fun H => H)).
  pose proof (find_update_found (FileDb.is_job jid) f js Hp) as H.
  rewrite Hk in H. unfold file_status_of. rewrite H.
  destruct (find (FileDb.is_job jid) js) as [x|] eqn:E.
  - exists x. reflexivity.
  - apply find_index_None in E. congruence.
Qed.

Lemma file_status_of_with_status (jid : string) (k : nat) (s : job_status) (js : list FileDb.job) :
  find_index (FileDb.is_job jid) js = Some k ->
  file_status_of jid (update_nth k (FileDb.with_status s) js) = Some s.
Proof.
  intros Hk. destruct (file_status_of_update jid k (FileDb.with_status s) js Hk) as [x ->];
    reflexivity.
Qed.

Lemma file_status_of_with_result (jid : string) (k : nat) (now : Z) (segs : list FileDb.segment)
    (js : list FileDb.job) :
  find_index (FileDb.is_job jid) js = Some k ->
  file_status_of jid (update_nth k (FileDb.with_result now segs) js) = Some completed.
Proof.
  intros Hk. destruct (file_status_of_update jid k (FileDb.with_result now segs) js Hk) as [x ->];
    reflexivity.
Qed.

Lemma file_status_runs (w : FileDb.world) (j : FileDb.job) (fs : list bool) :
  let w' := snd (run (FileDb.processJobInBackground j) w fs) in
  exists Hs, FileDb.history w' = (FileDb.history w ++ Hs)%list
          /\ In (map (file_status_of (FileDb.id j)) Hs) (map (map Some) file_runs).
Proof.
  unfold FileDb.processJobInBackground, FileDb.mark_processing, FileDb.process_in_tempdir,
    FileDb.mark_failed, FileDb.cleanup, FileDb.readJobs, FileDb.writeJobs,
    FileDb.getVideoDuration.
  monad.
  repeat (match goal with
          | |- context [match ?fs with nil => _ | cons _ _ => _ end] => is_var fs; destruct fs as [|[] fs]
          | |- context [FileDb.make_shorts ?jb ?d ?i ?n ?sg (?w0, ?fs0)] =>
              let H := fresh "Hloop" in
              pose proof (file_make_shorts_frame jb d i n sg w0 fs0) as H;
              destruct (FileDb.make_shorts jb d i n sg (w0, fs0)) as [[?sg4|] [?w4 ?fs4]]
          | |- context [match find_index ?p ?l with Some _ => _ | None => _ end] =>
              let E := fresh "Efind" in destruct (find_index p l) eqn:E
          | |- context [if ?b then _ else _] => destruct b eqn:?
          end; monad).
  all: cbn [FileDb.history FileDb.jobs FileDb.set_jobs FileDb.set_tmpdirs FileDb.set_users
              FileDb.set_storage] in *.
  all: try (destruct Hloop as [[Hjl Hhl] _]; rewrite ?Hhl, ?Hjl in *).
  all: try congruence.
  all: first [ exists nil; split; [symmetry; apply app_nil_r | cbn; tauto]
             | eexists; split; [rewrite <- ?app_assoc; reflexivity | ] ].
  all: cbn [map app].
  all: repeat first [ rewrite file_status_of_with_status by eassumption
                    | rewrite file_status_of_with_result by eassumption ].
  all: cbn; intuition congruence.
Qed.

(** C3: a run of [processJobInBackground] appends to the history of the jobs
    collection writes whose statuses for the job form one of the listed
    sequences.  In the Mongo version they are a prefix of downloading,
    processing, completed, possibly followed by failed, written by the
    [catch] block.  Because [fs.rm(tempDir)] sits in the [try] after the
    completed save, failed can follow completed.  In the JSON-file version
    they are processing, then completed or failed, or failed alone:
    downloading is never written. *)
Theorem C3_status_runs (mw : Mongo.world) (jid : string) (mfs : list bool)
    (fw : FileDb.world) (j : FileDb.job) (ffs : list bool) :
  (exists Hs,
      Mongo.history (snd (run (Mongo.processJobInBackground jid) mw mfs))
      = (Mongo.history mw ++ Hs)%list
      /\ In (map (mongo_status_of jid) Hs) (map (map Some) mongo_runs))
  /\ (exists Hs,
      FileDb.history (snd (run (FileDb.processJobInBackground j) fw ffs))
      = (FileDb.history fw ++ Hs)%list
      /\ In (map (file_status_of (FileDb.id j)) Hs) (map (map Some) file_runs)).
Proof. split; [apply mongo_status_runs | apply file_status_runs]. Qed.

(** C3, counterexample: in the Mongo version a pending job goes to
    completed and then to failed when removing the temporary directory
    rejects (the 42nd awaited call); in the JSON-file version a pending job
    goes to processing and completed without passing through downloading. *)
Lemma C3_counterexample :
  map (mongo_status_of "j1")
      (Mongo.history (snd (run (Mongo.processJobInBackground "j1") mw_pending
                              (repeat false 41 ++ [true]))))
  = [Some downloading; Some processing; Some completed; Some failed]
  /\ map (file_status_of "job_1")
         (FileDb.history (snd (run (FileDb.processJobInBackground fj_pending) fw_pending [])))
  = [Some processing; Some completed].
Proof. vm_compute. split; reflexivity. Qed.

(** * Further routes and the code they call *)


(** X1. [POST /api/register] never changes the clock and keeps e-mails
    unique in [users.json]; an e-mail already registered is answered 400 (or
    500 if the read fails); a success answers [user_<Date.now()>], the given
    e-mail and 100 credits, and appends exactly that account with the hashed
    password; any other answer leaves [users.json] unchanged. *)
Lemma file_register_outcome (hash : string -> string) (e p : string) (w : FileAuth.world)
    (fs : list bool) :
  let '(r, w') := run (FileAuth.register hash e p) w fs in
  FileAuth.clock w' = FileAuth.clock w
  /\ (NoDup (map FileAuth.email (FileAuth.users w)) -> NoDup (map FileAuth.email (FileAuth.users w')))
  /\ (existsb (has_email e) (FileAuth.users w) = true -> r = Ok FileAuth.A400 \/ r = Ok FileAuth.A500)
  /\ match r with
     | Ok (FileAuth.A200 uid e' c) =>
         uid = "user_" ++ string_of_Z (FileAuth.clock w) /\ e' = e /\ c = 100%Z
         /\ FileAuth.users w' = (FileAuth.users w
                                 ++ [FileAuth.mkAccount uid e (hash p) 100 (FileAuth.clock w)])%list
     | _ => FileAuth.users w' = FileAuth.users w
     end.
Proof.
  unfold FileAuth.register, FileAuth.readUsers, FileAuth.writeUsers.
  split_faults; destruct (existsb _ _) eqn:Hex; monad; split_faults; cbn;
    repeat split; auto; try discriminate; try (intros; discriminate).

  all: intros Hnd; rewrite List.map_app; cbn.
  all: apply NoDup_app; [exact Hnd | repeat constructor; auto | ].
  all: intros x Hx Hx'; destruct Hx' as [<-|[]].
  all: apply in_map_iff in Hx as [a [Ha Hin]].
  all: assert (existsb (has_email e) (FileAuth.users w) = true)
         by (apply existsb_exists; exists a; split; [exact Hin|apply String.eqb_eq; exact Ha]).
  all: unfold has_email in *; congruence.
Qed.

Lemma find_app_absent {A} (p : A -> bool) (l : list A) (x : A) :
  existsb p l = false -> p x = true -> find p (l ++ [x])%list = Some x.
Proof.
  induction l as [|y l IH]; cbn; [intros _ ->; reflexivity|].
  destruct (p y); [discriminate|exact IH].
Qed.

(** X2. With a [bcrypt.compare] that accepts the hash of a password, a
    registration of a new e-mail followed by a login with the same e-mail
    and password (no I/O failure) both answer the same user id, e-mail and
    100 credits. *)
Lemma file_register_login (hash : string -> string) (compare : string -> string -> bool)
    (Hc : forall pw, compare pw (hash pw) = true)
    (e p : string) (w : FileAuth.world)
    (He : existsb (has_email e) (FileAuth.users w) = false) :
  let uid := "user_" ++ string_of_Z (FileAuth.clock w) in
  let '(r1, w1) := run (FileAuth.register hash e p) w [] in
  r1 = Ok (FileAuth.A200 uid e 100)
  /\ fst (run (FileAuth.login compare e p) w1 []) = Ok (FileAuth.A200 uid e 100).
Proof.
  unfold FileAuth.register, FileAuth.login, FileAuth.readUsers, FileAuth.writeUsers.
  monad. unfold has_email in He. rewrite He. monad. cbn [FileAuth.users].
  rewrite (find_app_absent _ _ _ He) by apply String.eqb_refl.
  monad. cbn [FileAuth.password]. rewrite Hc. split; reflexivity.
Qed.

Lemma find_to_user_absent (uid : string) (l : list FileAuth.account) :
  existsb (fun a => String.eqb (FileAuth.id a) uid) l = false ->
  find (FileDb.is_user uid) (map FileAuth.to_user l) = None.
Proof.
  induction l as [|a l IH]; cbn; [reflexivity|].
  unfold FileDb.is_user. cbn. destruct (String.eqb (FileAuth.id a) uid); [discriminate|exact IH].
Qed.

(** X3. Two registrations of different new e-mails in the same
    millisecond both succeed with the same user id [user_<Date.now()>]; in a
    [users.json] holding these accounts, [authMiddleware] resolves that id
    (the second user's token) to the first account. *)
Lemma file_register_same_clock (hash : string -> string) (e1 e2 p1 p2 : string)
    (w : FileAuth.world) (fw : FileDb.world)
    (Hne : e1 <> e2)
    (He1 : existsb (has_email e1) (FileAuth.users w) = false)
    (He2 : existsb (has_email e2) (FileAuth.users w) = false)
    (Hid : existsb (fun a => String.eqb (FileAuth.id a) ("user_" ++ string_of_Z (FileAuth.clock w)))
             (FileAuth.users w) = false) :
  let uid := "user_" ++ string_of_Z (FileAuth.clock w) in
  let '(r1, w1) := run (FileAuth.register hash e1 p1) w [] in
  let '(r2, w2) := run (FileAuth.register hash e2 p2) w1 [] in
  r1 = Ok (FileAuth.A200 uid e1 100) /\ r2 = Ok (FileAuth.A200 uid e2 100)
  /\ (FileDb.users fw = map FileAuth.to_user (FileAuth.users w2) ->
      fst (run (FileDb.authMiddleware uid) fw [])
      = Ok (Some (FileDb.mkUser uid e1 100))).
Proof.
  unfold FileAuth.register, FileAuth.readUsers, FileAuth.writeUsers.
  monad. unfold has_email in He1, He2. rewrite He1. monad. cbn [FileAuth.users FileAuth.clock].
  rewrite existsb_app, He2. cbn. rewrite (proj2 (String.eqb_neq e1 e2) Hne). cbn.
  repeat split. intros Hfw.
  unfold FileDb.authMiddleware, FileDb.readUsers. monad. rewrite Hfw.
  rewrite <- app_assoc, List.map_app.
  rewrite find_app_none by (apply find_to_user_absent; exact Hid).
  cbn. unfold FileDb.is_user. cbn. rewrite String.eqb_refl. reflexivity.
Qed.


Lemma insert_newest_perm (j : FileDb.job) (l : list FileDb.job) :
  Permutation (FileRoutes.insert_newest j l) (j :: l).
Proof.
  induction l as [|x l IH]; cbn; [reflexivity|].
  destruct (FileDb.createdAt x <=? FileDb.createdAt j)%Z; [reflexivity|].
  rewrite IH. apply perm_swap.
Qed.

Lemma sort_newest_perm (l : list FileDb.job) : Permutation (FileRoutes.sort_newest l) l.
Proof.
  induction l as [|x l IH]; cbn; [reflexivity|].
  rewrite insert_newest_perm. constructor. exact IH.
Qed.

Lemma insert_newest_sorted (j : FileDb.job) (l : list FileDb.job) :
  Sorted newer_first l -> Sorted newer_first (FileRoutes.insert_newest j l).
Proof.
  induction 1 as [|x l Hs IH Hhd]; cbn; [repeat constructor|].
  destruct (FileDb.createdAt x <=? FileDb.createdAt j)%Z eqn:E.
  - apply Z.leb_le in E. constructor; [constructor; assumption|constructor; exact E].
  - apply Z.leb_gt in E. constructor; [exact IH|].
    destruct l as [|y l]; cbn; [constructor; unfold newer_first; lia|].
    inversion Hhd; subst.
    destruct (FileDb.createdAt y <=? FileDb.createdAt j)%Z; constructor; unfold newer_first in *; lia.
Qed.

Lemma sort_newest_sorted (l : list FileDb.job) : Sorted newer_first (FileRoutes.sort_newest l).
Proof. induction l as [|x l IH]; cbn; [constructor|apply insert_newest_sorted, IH]. Qed.

Lemma Sorted_firstn {A} (R : A -> A -> Prop) (n : nat) (l : list A) :
  Sorted R l -> Sorted R (firstn n l).
Proof.
  revert l. induction n as [|n IH]; intros l Hl; [constructor|].
  destruct Hl as [|x l Hl Hhd]; cbn; [constructor|].
  constructor; [apply IH, Hl|].
  destruct n, l as [|y l]; cbn; constructor. inversion Hhd; assumption.
Qed.

(** X4. [GET /api/jobs] never writes.  It answers 401 when reading
    [users.json] rejects or the caller is not in it, 500 when reading
    [jobs.json] then rejects, and otherwise 200 with at most 20 jobs, all of
    the caller and taken from [jobs.json], newest first; when the caller has
    at most 20 jobs it lists exactly them. *)
Lemma file_list_jobs (userId : string) (w : FileDb.world) (fs : list bool) :
  let '(r, w') := run (FileRoutes.list_jobs userId) w fs in
  w' = w
  /\ match fs, find (FileDb.is_user userId) (FileDb.users w) with
     | true :: _, _ | _, None => r = Ok FileRoutes.L401
     | _ :: true :: _, Some _ => r = Ok FileRoutes.L500
     | _, Some _ =>
         match r with
         | Ok (FileRoutes.L200 js) =>
             let mine := filter (fun j => String.eqb (FileDb.userId j) userId) (FileDb.jobs w) in
             (length js <= 20)%nat
             /\ Forall (fun j => FileDb.userId j = userId /\ In j (FileDb.jobs w)) js
             /\ Sorted newer_first js
             /\ ((length mine <= 20)%nat -> Permutation js mine)
         | _ => False
         end
     end.
Proof.
  unfold FileRoutes.list_jobs, FileRoutes.list_jobs_handler, FileDb.authMiddleware,
    FileDb.readUsers, FileDb.readJobs.
  destruct (find (FileDb.is_user userId) (FileDb.users w)) as [u|] eqn:Ef;
  destruct fs as [|[] [|[] fs]]; monad; rewrite ?Ef; monad.
  all: split; [reflexivity|]; try reflexivity.
  all: apply find_some in Ef as [_ Hu]; unfold FileDb.is_user in Hu; apply String.eqb_eq in Hu; subst userId.
  all: repeat split.
  all: try apply firstn_le_length; try (apply Sorted_firstn, sort_newest_sorted).
  all: try (apply Forall_forall; intros j Hj;
             assert (Hs : In j (FileRoutes.sort_newest
                        (filter (fun j => String.eqb (FileDb.userId j) (FileDb.uid u)) (FileDb.jobs w))))
               by (rewrite <- (firstn_skipn 20 (FileRoutes.sort_newest _)); apply in_or_app; left; exact Hj);
             apply (Permutation_in _ (sort_newest_perm _)) in Hs;
             apply filter_In in Hs as [Hin Hown]; split; [apply String.eqb_eq; exact Hown|exact Hin]).
  all: intros Hlen; rewrite firstn_all2 by (rewrite (Permutation_length (sort_newest_perm _)); exact Hlen);
       apply sort_newest_perm.
Qed.

Lemma file_create_job_402 (u : FileDb.user) (url : string) (w : FileDb.world) (fs : list bool) :
  fst (run (FileDb.create_job u url) w fs) = Ok FileDb.R402 <-> (FileDb.credits u < 25)%Z.
Proof.
  unfold FileDb.create_job, FileDb.readJobs, FileDb.writeJobs, FileDb.readUsers, FileDb.writeUsers.
  destruct (FileDb.credits u <? 25)%Z eqn:Hc.
  - apply Z.ltb_lt in Hc. monad. tauto.
  - apply Z.ltb_ge in Hc. split; [|lia]. split_faults.
    all: repeat (match goal with
           | |- context [match find_index ?p ?l with Some _ => _ | None => _ end] =>
               destruct (find_index p l); split_faults
           end).
    all: discriminate.
Qed.

(** X5. [POST /api/preview] (JSON file) never writes; it answers 400
    exactly for an empty URL or one without [youtu], and a 200 answer
    reports a cost of 25, the caller's balance, and [canAfford] false exactly
    when [POST /api/jobs] for that user answers 402. *)
Lemma file_preview (userId url : string) (w : FileDb.world) (fs : list bool) :
  let '(r, w') := run (FileRoutes.post_preview userId url) w fs in
  w' = w
  /\ match r with
     | Ok FileRoutes.P401 => True
     | Ok FileRoutes.P400 => (String.eqb url "" || negb (includes url "youtu")) = true
     | Ok (FileRoutes.P200 p) =>
         (String.eqb url "" || negb (includes url "youtu")) = false
         /\ FileRoutes.pv_totalCost p = 25%Z
         /\ exists u, find (FileDb.is_user userId) (FileDb.users w) = Some u
              /\ FileRoutes.pv_userCredits p = FileDb.credits u
              /\ forall w2 fs2,
                   FileRoutes.pv_canAfford p = false
                   <-> fst (run (FileDb.create_job u url) w2 fs2) = Ok FileDb.R402
     | _ => False
     end.
Proof.
  unfold FileRoutes.post_preview, FileRoutes.preview_handler, FileDb.authMiddleware,
    FileDb.readUsers.
  split_faults.
  all: destruct (find (FileDb.is_user userId) (FileDb.users w)) as [u|] eqn:Ef; split_faults.
  all: try (destruct ((url =? "") || negb (includes url "youtu")) eqn:Hurl; split_faults).
  all: split; [reflexivity|]; cbn -[includes]; auto.
  all: split; [reflexivity|]; split; [reflexivity|]; exists u; split; [reflexivity|];
       split; [reflexivity|]; intros w2 fs2.
  all: pose proof (file_create_job_402 u url w2 fs2) as H402;
       cbv beta iota zeta delta [run fst] in H402; rewrite H402.
  all: destruct (25 <=? FileDb.credits u)%Z eqn:Hc; [apply Z.leb_le in Hc|apply Z.leb_gt in Hc];
       split; intros; first [discriminate | lia | reflexivity].
Qed.

Lemma mongo_create_job_402 (u : Mongo.user) (rq : Mongo.job_request) (oid : string)
    (w : Mongo.world) (fs : list bool) :
  fst (run (Mongo.create_job u rq oid) w fs) = Ok Mongo.R402
  <-> (Mongo.credits u < Mongo.PRICES (Mongo.rq_segmentDuration rq) * Mongo.rq_segmentCount rq)%Z.
Proof.
  unfold Mongo.create_job, Mongo.save_user, Mongo.save_job.
  destruct (Mongo.credits u <? _)%Z eqn:Hc.
  - apply Z.ltb_lt in Hc. monad. tauto.
  - apply Z.ltb_ge in Hc. split; [|lia]. split_faults.
    all: repeat (match goal with
           | |- context [if ?b then _ else _] => destruct b; split_faults
           end).
    all: discriminate.
Qed.

(** X6. [POST /api/preview] (MongoDB) never writes; it answers 400 exactly
    when the URL contains neither [youtube.com] nor [youtu.be], and a 200
    answer reports the cost [PRICES[segmentDuration] * segmentCount], the
    caller's balance, and [canAfford] false exactly when [POST /api/jobs]
    with the same request answers 402. *)
Lemma mongo_preview (remote : string * Q) (userId : string) (rq : Mongo.job_request)
    (w : Mongo.world) (fs : list bool) :
  let url := Mongo.rq_youtubeUrl rq in
  let '(r, w') := run (MongoRoutes.post_preview remote userId rq) w fs in
  w' = w
  /\ match r with
     | Ok MongoRoutes.P401 => True
     | Ok MongoRoutes.P400 =>
         includes url "youtube.com" = false /\ includes url "youtu.be" = false
     | Ok (MongoRoutes.P200 p) =>
         (includes url "youtube.com" || includes url "youtu.be") = true
         /\ MongoRoutes.pv_totalCost p
            = (Mongo.PRICES (Mongo.rq_segmentDuration rq) * Mongo.rq_segmentCount rq)%Z
         /\ exists u, find (Mongo.is_user userId) (Mongo.users w) = Some u
              /\ MongoRoutes.pv_userCredits p = Mongo.credits u
              /\ forall oid w2 fs2,
                   MongoRoutes.pv_canAfford p = false
                   <-> fst (run (Mongo.create_job u rq oid) w2 fs2) = Ok Mongo.R402
     | _ => False
     end.
Proof.
  unfold MongoRoutes.post_preview, MongoRoutes.preview_handler, Mongo.authMiddleware,
    Mongo.findUserById.
  split_faults.
  all: destruct (find (Mongo.is_user userId) (Mongo.users w)) as [u|] eqn:Ef; split_faults.
  all: try (destruct (includes (Mongo.rq_youtubeUrl rq) "youtube.com") eqn:H1;
            destruct (includes (Mongo.rq_youtubeUrl rq) "youtu.be") eqn:H2;
            cbn [negb andb]; split_faults).
  all: split; [reflexivity|]; cbn -[includes Mongo.PRICES]; auto.
  all: split; [reflexivity|]; split; [reflexivity|]; exists u; split; [reflexivity|];
       split; [reflexivity|]; intros oid w2 fs2.
  all: pose proof (mongo_create_job_402 u rq oid w2 fs2) as H402;
       cbv beta iota zeta delta [run fst] in H402; rewrite H402.
  all: destruct (_ <=? Mongo.credits u)%Z eqn:Hc; [apply Z.leb_le in Hc|apply Z.leb_gt in Hc];
       split; intros; first [discriminate | lia | reflexivity].
Qed.

Lemma update_nth_length {A} (k : nat) (f : A -> A) (l : list A) :
  length (update_nth k f l) = length l.
Proof. revert k; induction l as [|x l IH]; intros [|k]; cbn; auto. Qed.

Lemma nth_error_update_nth {A} (k i : nat) (f : A -> A) (l : list A) :
  nth_error (update_nth k f l) i = if Nat.eqb i k then option_map f (nth_error l i) else nth_error l i.
Proof.
  revert k i; induction l as [|x l IH]; intros k i.
  - destruct k, i; cbn; try reflexivity; destruct (Nat.eqb _ _); reflexivity.
  - destruct k as [|k], i as [|i]; cbn; try reflexivity.
    apply IH.
Qed.

Lemma find_index_spec {A} (p : A -> bool) (l : list A) (k : nat) :
  find_index p l = Some k -> exists x, nth_error l k = Some x /\ p x = true.
Proof.
  revert k; induction l as [|y l IH]; intros k H; cbn in H; [discriminate|].
  destruct (p y) eqn:Hy.
  - injection H as <-. exists y. auto.
  - destruct (find_index p l) as [k'|] eqn:E; cbn in H; [|discriminate].
    injection H as <-. apply (IH k' eq_refl).
Qed.

Lemma mongo_processSegment_result jobId index sd total dur subs text st :
  match Mongo.processSegment jobId index sd total dur subs text st with
  | (Ok s, _) =>
      Mongo.seg_index s = index /\ Mongo.seg_duration s = Some (inject_Z sd)
      /\ Mongo.seg_storageKey s = Some (mongo_segmentKey jobId index)
      /\ Mongo.seg_thumbnailUrl s = Some (mongo_thumbKey jobId index)
      /\ Mongo.seg_subtitleText s = (if subs then text else None)
  | (Err, _) => True
  end.
Proof.
  destruct st as [w fs]. unfold Mongo.processSegment, mongo_segment_window, Mongo.uploadToStorage.
  split_faults; cbn; auto.
Qed.

Lemma assign_segment_length (i : nat) (s : Mongo.segment) (segs : list Mongo.segment) :
  (i <= length segs)%nat -> length (Mongo.assign_segment i s segs) = Nat.max (S i) (length segs).
Proof.
  intros Hi. unfold Mongo.assign_segment. destruct (Nat.ltb i (length segs)) eqn:E.
  - apply Nat.ltb_lt in E. rewrite update_nth_length. lia.
  - apply Nat.ltb_ge in E. rewrite length_app. simpl length. lia.
Qed.

Lemma assign_segment_nth (i k : nat) (s : Mongo.segment) (segs : list Mongo.segment) :
  (i <= length segs)%nat ->
  nth_error (Mongo.assign_segment i s segs) k = if Nat.eqb k i then Some s else nth_error segs k.
Proof.
  intros Hi. unfold Mongo.assign_segment. destruct (Nat.ltb i (length segs)) eqn:E.
  - apply Nat.ltb_lt in E. rewrite nth_error_update_nth.
    destruct (Nat.eqb k i) eqn:Ek; [|reflexivity]. apply Nat.eqb_eq in Ek; subst.
    destruct (nth_error segs i) eqn:En; [reflexivity|]. apply nth_error_None in En. lia.
  - apply Nat.ltb_ge in E. assert (i = length segs) by lia. subst.
    destruct (Nat.eqb k (length segs)) eqn:Ek.
    + apply Nat.eqb_eq in Ek; subst. rewrite nth_error_app2, Nat.sub_diag by lia. reflexivity.
    + apply Nat.eqb_neq in Ek. destruct (Nat.lt_ge_cases k (length segs)).
      * apply nth_error_app1; lia.
      * rewrite nth_error_app2 by lia. rewrite (proj2 (nth_error_None segs k)) by lia.
        destruct (k - length segs)%nat as [|[|m]] eqn:Em; [lia|reflexivity|reflexivity].
Qed.

(** X11. When the MongoDB segment loop completes on a job with at most
    [segmentCount] segments, the job has exactly [segmentCount] segments and
    segment [k] has index [k + 1], duration [segmentDuration], the keys
    [shorts/<id>/segment_<k+1>.mp4] and [shorts/<id>/thumb_<k+1>.jpg], and
    the text [Segment <k+1> - Generated by Shorts Pro] when subtitles are on
    (the mock subtitles are overwritten), none otherwise. *)
Lemma mongo_segment_loop_layout_from (job : Mongo.job) (i n : nat) (st : Mongo.world * list bool) :
  (i <= length (Mongo.segments job))%nat -> (length (Mongo.segments job) <= i + n)%nat ->
  match Mongo.segment_loop job i n st with
  | (Ok j', _) =>
      j' = Mongo.with_segments (Mongo.segments j') job
      /\ length (Mongo.segments j') = (i + n)%nat
      /\ (forall k, (k < i)%nat -> nth_error (Mongo.segments j') k = nth_error (Mongo.segments job) k)
      /\ (forall k, (i <= k < i + n)%nat ->
            exists s, nth_error (Mongo.segments j') k = Some s /\ mongo_seg_layout job k s)
  | (Err, _) => True
  end.
Proof.
  revert job i st. induction n as [|n IH]; intros job i st H1 H2.
  - cbn. repeat split.
    + destruct job; reflexivity.
    + lia.
    + intros k Hk. lia.
  - cbn [Mongo.segment_loop]. unfold bind at 1.
    destruct (Mongo.getVideoDuration st) as [[d|] st1]; [|exact I].
    unfold bind at 1.
    match goal with |- context [Mongo.processSegment ?a ?b ?c ?d' ?e ?f ?g st1] =>
      pose proof (mongo_processSegment_result a b c d' e f g st1) as Hs;
      destruct (Mongo.processSegment a b c d' e f g st1) as [[s|] st2]; [|exact I] end.
    set (job' := Mongo.with_segments (Mongo.assign_segment i s (Mongo.segments job)) job).
    assert (Hl : length (Mongo.segments job') = Nat.max (S i) (length (Mongo.segments job)))
      by (apply assign_segment_length; exact H1).
    specialize (IH job' (S i) st2 ltac:(lia) ltac:(lia)).
    destruct (Mongo.segment_loop job' (S i) n st2) as [[j'|] st3]; [|exact I].
    destruct IH as [Hj [Hlen [Hpre Hpost]]].
    assert (Hn : forall k, nth_error (Mongo.segments job') k
                 = if Nat.eqb k i then Some s else nth_error (Mongo.segments job) k)
      by (intros k; apply assign_segment_nth; exact H1).
    repeat split.
    + rewrite Hj at 1. destruct job; reflexivity.
    + lia.
    + intros k Hk. rewrite Hpre by lia. rewrite Hn. destruct (Nat.eqb_spec k i); [lia|reflexivity].
    + intros k Hk. destruct (Nat.eq_dec k i) as [->|Hki].
      * exists s. rewrite Hpre by lia. rewrite Hn, Nat.eqb_refl. split; [reflexivity|].
        destruct Hs as [Hi [Hd [Hk1 [Ht Hsub]]]]. unfold mongo_seg_layout.
        rewrite Hi, Hd, Hk1, Ht, Hsub. destruct (Mongo.subtitlesEnabled job); repeat split.
      * destruct (Hpost k ltac:(lia)) as [s' [Hs' Hlay]]. exists s'. split; [exact Hs'|].
        unfold mongo_seg_layout in *. exact Hlay.
Qed.

Lemma mongo_segment_loop_layout (job : Mongo.job) (st : Mongo.world * list bool)
  (Hlen : (length (Mongo.segments job) <= Z.to_nat (Mongo.segmentCount job))%nat) :
  match Mongo.segment_loop job 0 (Z.to_nat (Mongo.segmentCount job)) st with
  | (Ok j', _) =>
      j' = Mongo.with_segments (Mongo.segments j') job
      /\ length (Mongo.segments j') = Z.to_nat (Mongo.segmentCount job)
      /\ (forall k, (k < Z.to_nat (Mongo.segmentCount job))%nat ->
            exists s, nth_error (Mongo.segments j') k = Some s /\ mongo_seg_layout job k s)
  | (Err, _) => True
  end.
Proof.
  pose proof (mongo_segment_loop_layout_from job 0 (Z.to_nat (Mongo.segmentCount job)) st
                ltac:(lia) ltac:(lia)) as H.
  destruct (Mongo.segment_loop job 0 _ st) as [[j'|] st']; [|exact I].
  destruct H as [H1 [H2 [_ H4]]]. split; [exact H1|]. split; [exact H2|].
  intros k Hk. apply H4. lia.
Qed.

Lemma file_make_shorts_eq (j : FileDb.job) (d : Q) (i n : nat) (segs : list FileDb.segment)
  (w : FileDb.world) (fs : list bool) :
  match FileDb.make_shorts j d i n segs (w, fs) with
  | (Ok segs', (w', _)) =>
      segs' = (segs ++ map (file_short j d) (seq i n))%list
      /\ w' = FileDb.set_storage (fold_left (file_push_keys j) (seq i n) (FileDb.storage w)) w
  | (Err, _) => True
  end.
Proof.
  revert i segs w fs. induction n as [|n IH]; intros i segs w fs.
  - cbn. rewrite app_nil_r. split; [reflexivity|]. destruct w; reflexivity.
  - cbn [FileDb.make_shorts]. unfold file_segment_window at 1, FileDb.uploadToStorage.
    split_faults.
    all: try exact I.
    all: match goal with |- context [FileDb.make_shorts _ _ (S ?i') _ ?s' (?w', ?f')] =>
      specialize (IH (S i') s' w' f'); destruct (FileDb.make_shorts _ _ (S i') _ s' (w', f')) as [[r|] [w2 f2]] end.
    all: try exact I.
    all: destruct IH as [-> ->]; split; [rewrite <- app_assoc; reflexivity|reflexivity].
Qed.

(** X12. The JSON-file shorts loop from [i], [n] iterations, returns the
    array built so far followed by the shorts numbered [i + 1 .. i + n]
    (start [(duration / 5) * k], 30 s, keys
    [users/<userId>/<jobId>/short_<k+1>.mp4] and [.../thumb_<k+1>.jpg]), and
    changes nothing but the bucket, where it adds each short's video key then
    its thumbnail key. *)
Theorem file_make_shorts_segments (j : FileDb.job) (d : Q) (i n : nat) (segs : list FileDb.segment)
  (w : FileDb.world) (fs : list bool) :
  match FileDb.make_shorts j d i n segs (w, fs) with
  | (Ok segs', (w', _)) =>
      segs' = (segs ++ map (file_short j d) (seq i n))%list
      /\ w' = FileDb.set_storage (fold_left (file_push_keys j) (seq i n) (FileDb.storage w)) w
  | (Err, _) => True
  end.
Proof. exact (file_make_shorts_eq j d i n segs w fs). Qed.

Lemma filter_update_nth_same {A} (p : A -> bool) (k : nat) (f : A -> A) (l : list A) :
  (forall x, nth_error l k = Some x -> p x = true /\ p (f x) = true) ->
  filter (fun x => negb (p x)) (update_nth k f l) = filter (fun x => negb (p x)) l.
Proof.
  revert k; induction l as [|x l IH]; intros [|k] H; cbn; auto.
  - destruct (H x eq_refl) as [H1 H2]. rewrite H1, H2. reflexivity.
  - destruct (p x); cbn; [apply IH, H|f_equal; apply IH, H].
Qed.

Lemma filter_upsert_job (j : Mongo.job) (js : list Mongo.job) :
  filter (fun x => negb (Mongo.is_job (Mongo.id j) x)) (Mongo.upsert_job j js)
  = filter (fun x => negb (Mongo.is_job (Mongo.id j) x)) js.
Proof.
  unfold Mongo.upsert_job. destruct (find_index (Mongo.is_job (Mongo.id j)) js) as [k|] eqn:Hk.
  - apply filter_update_nth_same. intros x Hx.
    destruct (find_index_spec _ _ _ Hk) as [y [Hy Hp]]. rewrite Hx in Hy. injection Hy as <-.
    split; [exact Hp|]. unfold Mongo.is_job. apply String.eqb_refl.
  - rewrite filter_app. cbn. unfold Mongo.is_job at 2. rewrite String.eqb_refl. cbn.
    apply app_nil_r.
Qed.

Lemma file_filter_update (jid : string) (f : FileDb.job -> FileDb.job) (js : list FileDb.job) (k : nat) :
  (forall x, FileDb.id (f x) = FileDb.id x) ->
  find_index (FileDb.is_job jid) js = Some k ->
  filter (fun x => negb (FileDb.is_job jid x)) (update_nth k f js)
  = filter (fun x => negb (FileDb.is_job jid x)) js.
Proof.
  intros Hf Hk. apply filter_update_nth_same. intros x Hx.
  destruct (find_index_spec _ _ _ Hk) as [y [Hy Hp]]. rewrite Hx in Hy. injection Hy as <-.
  split; [exact Hp|]. unfold FileDb.is_job in *. rewrite Hf. exact Hp.
Qed.

(** Generic Mongo frame *)
Section MongoFrame.
Variable Inv : Mongo.world -> Prop.
Variable P : Mongo.job -> Prop.
Hypothesis Hus : forall us w, Inv w -> Inv (Mongo.set_users us w).
Hypothesis Hst : forall ks w, Inv w -> Inv (Mongo.set_storage ks w).
Hypothesis Htd : forall ds w, Inv w -> Inv (Mongo.set_tmpdirs ds w).
Hypothesis Hjb : forall j w, P j -> Inv w -> Inv (Mongo.set_jobs (Mongo.upsert_job j (Mongo.jobs w)) w).

Ltac frame_tac := first [apply Hus | apply Hst | apply Htd]; assumption.

Lemma frame_findJobById (jid : string) :
  safe Inv (Mongo.findJobById jid) (fun o => forall j, o = Some j -> Mongo.id j = jid).
Proof.
  unfold Mongo.findJobById. sstep frame_tac. sstep frame_tac. apply safe_ret.
  intros j Hj. apply find_some in Hj as [_ Hj]. unfold Mongo.is_job in Hj.
  apply String.eqb_eq, Hj.
Qed.

Lemma frame_findUserById (uid : string) : safe Inv (Mongo.findUserById uid) (fun _ => True).
Proof. unfold Mongo.findUserById. repeat sstep frame_tac. Qed.

Lemma frame_save_job (j : Mongo.job) : P j -> safe Inv (Mongo.save_job j) (fun _ => True).
Proof.
  intros Hj. unfold Mongo.save_job. destruct (Mongo.valid_job j); [|sstep frame_tac].
  sstep frame_tac. apply safe_modify. intros w Hw. apply Hjb; assumption.
Qed.

Lemma frame_save_user (u : Mongo.user) : safe Inv (Mongo.save_user u) (fun _ => True).
Proof. unfold Mongo.save_user. repeat sstep frame_tac. Qed.

Lemma frame_authMiddleware (uid : string) : safe Inv (Mongo.authMiddleware uid) (fun _ => True).
Proof.
  unfold Mongo.authMiddleware.
  eapply safe_bind; [apply safe_attempt, frame_findUserById|].
  intros [r|] _; sstep frame_tac.
Qed.

Lemma frame_post_jobs (uid : string) (rq : Mongo.job_request) (oid : string) :
  (forall j, P j) -> safe Inv (Mongo.post_jobs uid rq oid) (fun _ => True).
Proof.
  intros HP. unfold Mongo.post_jobs.
  eapply safe_bind; [apply frame_authMiddleware|].
  intros [u|] _; [|sstep frame_tac].
  apply safe_try_catch; [|sstep frame_tac].
  unfold Mongo.create_job. destruct (Mongo.credits u <? _)%Z; [sstep frame_tac|].
  eapply safe_bind; [apply frame_save_user|intros _ _].
  sstep frame_tac.
  eapply safe_bind; [apply frame_save_job, HP|intros _ _; sstep frame_tac].
Qed.

Lemma frame_processJobInBackground (jid : string) :
  (forall j, Mongo.id j = jid -> P j) ->
  safe Inv (Mongo.processJobInBackground jid) (fun _ => True).
Proof.
  intros HP. apply safe_try_catch.
  - unfold Mongo.pipeline.
    eapply safe_bind; [apply frame_findJobById|].
    intros [job0|] Hj0; [|sstep frame_tac].
    specialize (Hj0 job0 eq_refl).
    eapply safe_bind; [apply frame_save_job, HP; exact Hj0|intros _ _].
    repeat sstep frame_tac.
    eapply safe_bind; [apply frame_save_job, HP; exact Hj0|intros _ _].
    eapply safe_bind with (Q := fun j3 => Mongo.id j3 = jid).
    { destruct (Mongo.subtitlesEnabled _); repeat sstep frame_tac; exact Hj0. }
    intros job3 H3.
    eapply safe_bind; [apply mongo_segment_loop_safe; exact Hst|intros job4 H4].
    repeat sstep frame_tac.
    eapply safe_bind; [apply frame_save_job, HP; rewrite H4; exact H3|intros _ _].
    repeat sstep frame_tac.
  - unfold Mongo.failure_handler.
    eapply safe_bind; [apply frame_findJobById|].
    intros [job|] Hj; [|sstep frame_tac].
    specialize (Hj job eq_refl).
    eapply safe_bind; [apply frame_save_job, HP; exact Hj|intros _ _].
    eapply safe_bind; [apply frame_findUserById|].
    intros [u|] _; [apply frame_save_user|sstep frame_tac].
Qed.

End MongoFrame.

(** X9. [processJobInBackground(jobId)] (MongoDB) leaves every job with
    another id unchanged and in order. *)
Theorem mongo_process_frame (jid : string) (w : Mongo.world) (fs : list bool) :
  others jid (Mongo.jobs (snd (run (Mongo.processJobInBackground jid) w fs))) = others jid (Mongo.jobs w).
Proof.
  set (F := others jid (Mongo.jobs w)).
  change ((fun w' => others jid (Mongo.jobs w') = F) (snd (run (Mongo.processJobInBackground jid) w fs))).
  apply (safe_run _ _ (fun _ => True)); [|reflexivity].
  apply (frame_processJobInBackground _ (fun j => Mongo.id j = jid)); auto.
  intros j w' Hj Hw'. cbn. unfold others in *. subst jid. rewrite filter_upsert_job. exact Hw'.
Qed.

Section FileFrame.
Variable jid : string.
Variables (U : list FileDb.user) (F : list FileDb.job).

Ltac fr_tac := unfold file_frame in *;
  cbn [FileDb.users FileDb.jobs FileDb.set_storage FileDb.set_tmpdirs FileDb.set_jobs] in *; tauto.

Lemma fr_readJobs : safe (file_frame jid U F) FileDb.readJobs (fun js => filter (fun x => negb (FileDb.is_job jid x)) js = F).
Proof. unfold FileDb.readJobs. sstep fr_tac. sstep fr_tac. apply safe_ret. apply Hw. Qed.

Lemma fr_update (f : FileDb.job -> FileDb.job) (js : list FileDb.job) :
  (forall x, FileDb.id (f x) = FileDb.id x) ->
  filter (fun x => negb (FileDb.is_job jid x)) js = F ->
  safe (file_frame jid U F) (match find_index (FileDb.is_job jid) js with
                   | Some k => FileDb.writeJobs (update_nth k f js)
                   | None => ret tt
                   end) (fun _ => True).
Proof.
  intros Hf HF. destruct (find_index _ js) as [k|] eqn:Hk; [|sstep fr_tac].
  unfold FileDb.writeJobs. sstep fr_tac. apply safe_modify. intros w [Hu _]. split; [exact Hu|].
  cbn. rewrite file_filter_update; assumption.
Qed.

Lemma fr_process (j : FileDb.job) : FileDb.id j = jid ->
  safe (file_frame jid U F) (FileDb.processJobInBackground j) (fun _ => True).
Proof.
  intros Hid.
  assert (Hst : forall ks w, file_frame jid U F w -> file_frame jid U F (FileDb.set_storage ks w)) by (intros; fr_tac).
  assert (Hmp : safe (file_frame jid U F) (FileDb.mark_processing j) (fun _ => True)).
  { unfold FileDb.mark_processing. rewrite Hid.
    eapply safe_bind; [apply fr_readJobs|intros js Hjs]. apply fr_update; [reflexivity|exact Hjs]. }
  assert (Hmf : safe (file_frame jid U F) (FileDb.mark_failed j) (fun _ => True)).
  { unfold FileDb.mark_failed. rewrite Hid.
    eapply safe_bind; [apply (safe_attempt _ _ (fun _ => True))|intros _ _; sstep fr_tac].
    eapply safe_bind; [apply fr_readJobs|intros js Hjs]. apply fr_update; [reflexivity|exact Hjs]. }
  assert (Hcl : forall d, safe (file_frame jid U F) (FileDb.cleanup d) (fun _ => True)).
  { intros [d|]; unfold FileDb.cleanup; [|sstep fr_tac].
    eapply safe_bind; [apply (safe_attempt _ _ (fun _ => True)); repeat sstep fr_tac
                      |intros _ _; sstep fr_tac]. }
  unfold FileDb.processJobInBackground.
  eapply safe_bind; [apply (safe_attempt _ _ (fun _ => True)), Hmp|intros r _].
  destruct r as [_|].
  - sstep fr_tac.
    eapply safe_bind; [apply (safe_attempt _ _ (fun _ => True))|intros r2 _].
    + unfold FileDb.process_in_tempdir. repeat sstep fr_tac.
      eapply safe_bind; [apply file_getVideoDuration_safe|intros d _].
      eapply safe_bind; [apply file_make_shorts_safe, Hst|intros segs _].
      eapply safe_bind; [apply fr_readJobs|intros js Hjs].
      sstep fr_tac. rewrite Hid. apply fr_update; [reflexivity|exact Hjs].
    + destruct r2 as [_|]; [apply Hcl|].
      eapply safe_bind; [apply Hmf|intros _ _; apply Hcl].
  - eapply safe_bind; [apply Hmf|intros _ _; apply Hcl].
Qed.
End FileFrame.

(** X10. [processJobInBackground(job)] (JSON file) never changes
    [users.json] (no refund) and leaves every job with another id unchanged
    and in order. *)
Theorem file_process_frame (j : FileDb.job) (w : FileDb.world) (fs : list bool) :
  let w' := snd (run (FileDb.processJobInBackground j) w fs) in
  FileDb.users w' = FileDb.users w
  /\ filter (fun x => negb (FileDb.is_job (FileDb.id j) x)) (FileDb.jobs w')
     = filter (fun x => negb (FileDb.is_job (FileDb.id j) x)) (FileDb.jobs w).
Proof.
  intros w'.
  apply (safe_run (file_frame (FileDb.id j) (FileDb.users w)
                     (filter (fun x => negb (FileDb.is_job (FileDb.id j) x)) (FileDb.jobs w)))
           _ (fun _ => True)); [|split; reflexivity].
  apply fr_process. reflexivity.
Qed.

(** X13. Signing the segments of a JSON-file job never rejects and never
    writes: every segment is kept in order, and each signed pair expires in
    7 days and 1 day. *)
Theorem file_sign_segments_total (segs : list FileDb.segment) (w : FileDb.world) (fs : list bool) :
  match FileDb.sign_segments segs (w, fs) with
  | (Ok vs, (w', _)) => w' = w /\ map fst vs = segs /\ Forall file_ttls_ok vs
  | (Err, _) => False
  end.
Proof.
  revert fs. induction segs as [|s segs IH]; intros fs; cbn [FileDb.sign_segments].
  - monad. auto.
  - unfold FileDb.getSignedStorageUrl. split_faults.
    all: match goal with |- context [FileDb.sign_segments ?sg (?w0, ?f')] =>
      specialize (IH f'); destruct (FileDb.sign_segments sg (w0, f')) as [[vs|] [w2 f2]] end.
    all: try contradiction.
    all: destruct IH as [-> [<- Hf]]; repeat split; auto; constructor; cbn; auto.
Qed.

(** X14. Signing the segments of a MongoDB job never writes, whether it
    succeeds or rejects; on success every segment is kept in order and is
    signed exactly when its storage key is truthy, both URLs for that key,
    expiring in 7 days and 1 day; it can reject only when some segment has a
    truthy key. *)
Theorem mongo_sign_segments_shape (segs : list Mongo.segment) (w : Mongo.world) (fs : list bool) :
  match Mongo.sign_segments segs (w, fs) with
  | (Ok vs, (w', _)) => w' = w /\ map fst vs = segs /\ Forall mongo_sign_ok vs
  | (Err, (w', _)) =>
      w' = w /\ exists s, In s segs /\ Mongo.truthy (Mongo.seg_storageKey s) <> None
  end.
Proof.
  revert fs. induction segs as [|s segs IH]; intros fs; cbn [Mongo.sign_segments].
  - monad. auto.
  - unfold Mongo.generateSignedUrl.
    destruct (Mongo.truthy (Mongo.seg_storageKey s)) as [key|] eqn:Hk.
    + split_faults.
      all: try (split; [reflexivity|]; exists s; split; [left; reflexivity|rewrite Hk; discriminate]).
      all: match goal with |- context [Mongo.sign_segments ?sg (?w0, ?f')] =>
        specialize (IH f'); destruct (Mongo.sign_segments sg (w0, f')) as [[vs|] [w2 f2]] end.
      all: try (destruct IH as [-> [s' [Hin Hs']]]; split; [reflexivity|];
                exists s'; split; [right; exact Hin|exact Hs']).
      all: destruct IH as [-> [<- Hf]]; repeat split; auto; constructor; auto;
           unfold mongo_sign_ok; cbn; repeat split; auto.
    + monad.
      specialize (IH fs); destruct (Mongo.sign_segments segs (w, fs)) as [[vs|] [w2 f2]].
      * destruct IH as [-> [<- Hf]]. repeat split; auto.
      * destruct IH as [-> [s' [Hin Hs']]]. split; [reflexivity|].
        exists s'. split; [right; exact Hin|exact Hs'].
Qed.

Lemma find_index_first {A} (p : A -> bool) (pre l : list A) (x : A) :
  find p pre = None -> p x = true -> find_index p (pre ++ x :: l) = Some (length pre).
Proof.
  induction pre as [|y pre IH]; cbn; intros Hn Hx; [rewrite Hx; reflexivity|].
  destruct (p y); [discriminate|]. rewrite (IH Hn Hx). reflexivity.
Qed.

Lemma update_nth_middle {A} (f : A -> A) (pre l : list A) (x : A) :
  update_nth (length pre) f (pre ++ x :: l) = (pre ++ f x :: l)%list.
Proof. induction pre as [|y pre IH]; cbn; [reflexivity|]. rewrite IH. reflexivity. Qed.

Lemma file_make_shorts_no_fault (j : FileDb.job) (d : Q) (i n : nat) (segs : list FileDb.segment)
  (w : FileDb.world) :
  match FileDb.make_shorts j d i n segs (w, []) with (Err, _) => False | (Ok _, (_, f)) => f = [] end.
Proof.
  revert i segs w. induction n as [|n IH]; intros i segs w; [reflexivity|].
  cbn [FileDb.make_shorts]. unfold file_segment_window at 1, FileDb.uploadToStorage. monad. apply IH.
Qed.

(** X15. [processJobInBackground(job)] (JSON file) writes into the first
    record of [jobs.json] with the job's id, wherever it stands: run without
    failure, it completes that record with the shorts of [job] (keys built
    from [job]'s owner) and leaves every other record unchanged, including
    any later record with the same id, e.g. [job] itself. *)
Theorem file_process_first_record (pre post : list FileDb.job) (j1 j : FileDb.job) (w : FileDb.world)
  (Hjobs : FileDb.jobs w = (pre ++ j1 :: post)%list)
  (Hid : FileDb.id j1 = FileDb.id j)
  (Hpre : find (FileDb.is_job (FileDb.id j)) pre = None) :
  FileDb.jobs (snd (run (FileDb.processJobInBackground j) w []))
  = (pre ++ FileDb.with_result (FileDb.clock w)
               (map (file_short j (FileDb.probe w)) (seq 0 (Z.to_nat file_segmentCount)))
               (FileDb.with_status processing j1) :: post)%list.
Proof.
  assert (Hx : FileDb.is_job (FileDb.id j) j1 = true)
    by (unfold FileDb.is_job; rewrite Hid; apply String.eqb_refl).
  unfold FileDb.processJobInBackground, FileDb.mark_processing, FileDb.process_in_tempdir,
    FileDb.readJobs, FileDb.writeJobs, FileDb.getVideoDuration, FileDb.cleanup.
  monad. rewrite Hjobs. rewrite (find_index_first _ _ _ _ Hpre Hx). monad.
  rewrite update_nth_middle. monad.
  match goal with |- context [FileDb.make_shorts ?a ?b ?c ?d ?e (?w1, ?f1)] =>
    pose proof (file_make_shorts_eq a b c d e w1 f1) as Hm;
    pose proof (file_make_shorts_no_fault a b c d e w1) as Hok;
    destruct (FileDb.make_shorts a b c d e (w1, f1)) as [[segs|] [w2 f2]] end.
  - destruct Hm as [-> ->]. subst f2. monad. cbn [FileDb.jobs FileDb.set_storage FileDb.set_tmpdirs FileDb.set_jobs].
    assert (Hx' : FileDb.is_job (FileDb.id j) (FileDb.with_status processing j1) = true) by exact Hx.
    rewrite (find_index_first _ _ _ _ Hpre Hx'). monad. rewrite update_nth_middle.
    reflexivity.
  - exact (False_ind _ Hok).
Qed.

Lemma file_post_jobs_ok (u url : string) (w : FileDb.world) (x : FileDb.user) :
  find (FileDb.is_user u) (FileDb.users w) = Some x -> (25 <= FileDb.credits x)%Z ->
  run (FileDb.post_jobs u url) w []
  = (Ok (FileDb.R200_job (file_new_job w x url)),
     FileDb.set_users (file_debit x (FileDb.users w))
       (FileDb.set_jobs (FileDb.jobs w ++ [file_new_job w x url]) w)).
Proof.
  intros H Hc.
  unfold FileDb.post_jobs, FileDb.authMiddleware, FileDb.create_job, FileDb.readUsers,
    FileDb.readJobs, FileDb.writeJobs, FileDb.writeUsers.
  monad. rewrite H. rewrite (proj2 (Z.ltb_ge _ _) Hc). monad.
  cbn [FileDb.users FileDb.jobs FileDb.set_jobs FileDb.clock FileDb.remote].
  unfold file_debit. destruct (find_index _ _); monad; reflexivity.
Qed.

(** X16. Two submissions of different users in the same millisecond both
    succeed and store two jobs with the same id [job_<Date.now()>]. *)
Theorem file_post_jobs_same_clock (u1 u2 url1 url2 : string) (w : FileDb.world) (x1 x2 : FileDb.user)
  (H1 : find (FileDb.is_user u1) (FileDb.users w) = Some x1)
  (H2 : find (FileDb.is_user u2) (FileDb.users w) = Some x2)
  (Hne : u1 <> u2) (Hc1 : (25 <= FileDb.credits x1)%Z) (Hc2 : (25 <= FileDb.credits x2)%Z) :
  let '(r1, w1) := run (FileDb.post_jobs u1 url1) w [] in
  let '(r2, w2) := run (FileDb.post_jobs u2 url2) w1 [] in
  exists j1 j2, r1 = Ok (FileDb.R200_job j1) /\ r2 = Ok (FileDb.R200_job j2)
    /\ FileDb.id j1 = FileDb.id j2 /\ FileDb.userId j1 = u1 /\ FileDb.userId j2 = u2
    /\ FileDb.jobs w2 = (FileDb.jobs w ++ [j1; j2])%list.
Proof.
  assert (Hu1 : FileDb.uid x1 = u1)
    by (apply find_some in H1 as [_ H]; unfold FileDb.is_user in H; apply String.eqb_eq, H).
  assert (Hu2 : FileDb.uid x2 = u2)
    by (apply find_some in H2 as [_ H]; unfold FileDb.is_user in H; apply String.eqb_eq, H).
  rewrite (file_post_jobs_ok u1 url1 w x1 H1 Hc1).
  assert (H2' : find (FileDb.is_user u2)
                  (FileDb.users (FileDb.set_users (file_debit x1 (FileDb.users w))
                     (FileDb.set_jobs (FileDb.jobs w ++ [file_new_job w x1 url1]) w))) = Some x2).
  { cbn [FileDb.users FileDb.set_users]. unfold file_debit. rewrite find_update_other; [exact H2| |].
    - intros y Hy. unfold FileDb.is_user in *. apply String.eqb_eq in Hy. rewrite Hy, Hu1.
      apply String.eqb_neq. exact Hne.
    - intros y. reflexivity. }
  rewrite (file_post_jobs_ok u2 url2 _ x2 H2' Hc2).
  exists (file_new_job w x1 url1), (file_new_job (FileDb.set_users (file_debit x1 (FileDb.users w))
                     (FileDb.set_jobs (FileDb.jobs w ++ [file_new_job w x1 url1]) w)) x2 url2).
  repeat split; auto. cbn. rewrite <- app_assoc. reflexivity.
Qed.

(** * Witnesses of the further properties *)

Lemma file_register_login_witness :
  (forall pw, String.eqb pw (id pw) = true)
  /\ existsb (has_email "b@x.org") (FileAuth.users aw_one) = false
  /\ let uid := "user_" ++ string_of_Z (FileAuth.clock aw_one) in
     let '(r1, w1) := run (FileAuth.register id "b@x.org" "pw") aw_one [] in
     r1 = Ok (FileAuth.A200 uid "b@x.org" 100)
     /\ fst (run (FileAuth.login String.eqb "b@x.org" "pw") w1 []) = Ok (FileAuth.A200 uid "b@x.org" 100).
Proof.
  assert (Hc : forall pw, String.eqb pw (id pw) = true) by (intros pw; apply String.eqb_refl).
  assert (He : existsb (has_email "b@x.org") (FileAuth.users aw_one) = false) by reflexivity.
  split; [exact Hc|]. split; [exact He|].
  exact (file_register_login id String.eqb Hc "b@x.org" "pw" aw_one He).
Defined.

Lemma file_register_same_clock_witness :
  "b@x.org" <> "c@x.org"
  /\ let uid := "user_" ++ string_of_Z (FileAuth.clock aw_one) in
     let '(r1, w1) := run (FileAuth.register id "b@x.org" "p1") aw_one [] in
     let '(r2, w2) := run (FileAuth.register id "c@x.org" "p2") w1 [] in
     r1 = Ok (FileAuth.A200 uid "b@x.org" 100) /\ r2 = Ok (FileAuth.A200 uid "c@x.org" 100)
     /\ (FileDb.users fw_fresh = map FileAuth.to_user (FileAuth.users w2) ->
         fst (run (FileDb.authMiddleware uid) fw_fresh [])
         = Ok (Some (FileDb.mkUser uid "b@x.org" 100))).
Proof.
  assert (Hne : "b@x.org" <> "c@x.org") by discriminate.
  split; [exact Hne|].
  exact (file_register_same_clock id "b@x.org" "c@x.org" "p1" "p2" aw_one fw_fresh Hne
           eq_refl eq_refl eq_refl).
Defined.

Lemma mongo_segment_loop_layout_witness :
  (length (Mongo.segments mj1) <= Z.to_nat (Mongo.segmentCount mj1))%nat /\
  match Mongo.segment_loop mj1 0 (Z.to_nat (Mongo.segmentCount mj1)) (mw_pending, []) with
  | (Ok j', _) =>
      j' = Mongo.with_segments (Mongo.segments j') mj1
      /\ length (Mongo.segments j') = Z.to_nat (Mongo.segmentCount mj1)
      /\ (forall k, (k < Z.to_nat (Mongo.segmentCount mj1))%nat ->
            exists s, nth_error (Mongo.segments j') k = Some s /\ mongo_seg_layout mj1 k s)
  | (Err, _) => True
  end.
Proof.
  assert (H : (length (Mongo.segments mj1) <= Z.to_nat (Mongo.segmentCount mj1))%nat) by (cbn; lia).
  exact (conj H (mongo_segment_loop_layout mj1 (mw_pending, []) H)).
Defined.

Lemma file_process_first_record_witness :
  FileDb.jobs fw_dup = ([] ++ fj_dup "user_1" :: [fj_dup "user_2"])%list
  /\ FileDb.id (fj_dup "user_1") = FileDb.id (fj_dup "user_2")
  /\ find (FileDb.is_job (FileDb.id (fj_dup "user_2"))) [] = None
  /\ FileDb.jobs (snd (run (FileDb.processJobInBackground (fj_dup "user_2")) fw_dup []))
     = ([] ++ FileDb.with_result (FileDb.clock fw_dup)
                 (map (file_short (fj_dup "user_2") (FileDb.probe fw_dup))
                      (seq 0 (Z.to_nat file_segmentCount)))
                 (FileDb.with_status processing (fj_dup "user_1")) :: [fj_dup "user_2"])%list.
Proof.
  split; [reflexivity|]. split; [reflexivity|]. split; [reflexivity|].
  exact (file_process_first_record [] [fj_dup "user_2"] (fj_dup "user_1") (fj_dup "user_2") fw_dup
           eq_refl eq_refl eq_refl).
Defined.

Lemma file_post_jobs_same_clock_witness :
  (25 <= FileDb.credits (FileDb.mkUser "user_1" "a@x.org" 75))%Z
  /\ (25 <= FileDb.credits (FileDb.mkUser "user_2" "b@x.org" 75))%Z
  /\ let '(r1, w1) := run (FileDb.post_jobs "user_1" "https://youtu.be/a") fw_dup [] in
     let '(r2, w2) := run (FileDb.post_jobs "user_2" "https://youtu.be/b") w1 [] in
     exists j1 j2, r1 = Ok (FileDb.R200_job j1) /\ r2 = Ok (FileDb.R200_job j2)
       /\ FileDb.id j1 = FileDb.id j2 /\ FileDb.userId j1 = "user_1" /\ FileDb.userId j2 = "user_2"
       /\ FileDb.jobs w2 = (FileDb.jobs fw_dup ++ [j1; j2])%list.
Proof.
  assert (Hc : (25 <= FileDb.credits (FileDb.mkUser "user_1" "a@x.org" 75))%Z) by (cbn; lia).
  assert (Hc' : (25 <= FileDb.credits (FileDb.mkUser "user_2" "b@x.org" 75))%Z) by (cbn; lia).
  split; [exact Hc|]. split; [exact Hc'|].
  exact (file_post_jobs_same_clock "user_1" "user_2" "https://youtu.be/a" "https://youtu.be/b" fw_dup
           (FileDb.mkUser "user_1" "a@x.org" 75) (FileDb.mkUser "user_2" "b@x.org" 75)
           eq_refl eq_refl ltac:(discriminate) Hc Hc').
Defined.
